(** * Preprocessing pipeline of the housing-price model: a shallow embedding

    This development embeds [src/preprocessing.py] and states its
    contract.  The Python module is configuration over pandas and
    scikit-learn, so the embedding has two layers:

    - the repository's own code (column taxonomy, [_validate_columns],
      [DropColumns], [make_preprocessor], [make_full_pipeline],
      [split_X_y]), translated definition by definition;
    - the library operations that code calls ([DataFrame.drop],
      [SimpleImputer], [OneHotEncoder], [OrdinalEncoder],
      [ColumnTransformer], [Pipeline]), modelled after their documented
      behaviour for the parameters the repository passes.

    Modelling conventions.
    - A [DataFrame] is a row count and an ordered list of labelled
      columns.  A column is either [Float64] (cells are rationals, [None]
      is NaN) or [Object] (cells are labels, [None] is NaN).  Floating
      point numbers are idealised as rationals.
    - The feature matrix returned by [transform] is kept column by
      column; a cell is [option Q] because a float array can hold NaN.
    - Exceptions are values of [exn]; a computation that may raise
      returns [result].
    - The library layer follows scikit-learn 1.2 to 1.7 (from 1.8 on the
      constant imputer discards an all-missing column as the others do).
      Of the library's input validation the model keeps the minimum sample
      count: an array without rows is a [ValueError].
    - The model covers typed frames: a numeric group reads [Float64]
      columns, a categorical group reads [Object] columns of strings, and
      a missing cell is NaN.  A column of the other dtype is reported as
      [TypeError_dtype], which marks the edge of the model and not a
      behaviour of the library; Python [None] objects inside an object
      column, which the imputer leaves alone, are not represented. *)

From Stdlib Require Import QArith.
From stdpp Require Import base option list strings gmap sorting.

Local Open Scope string_scope.
Local Open Scope list_scope.

(** ** Exceptions and results *)

Inductive exn : Type :=
| ValueError_missing_columns (missing : list string)
| KeyError (labels : list string)
| ValueError_column (label : string)
| TypeError_dtype (label : string)
| ValueError_unknown_category (label : string)
| ValueError_shape
| ValueError_no_samples
| NotFittedError.

Inductive result (A : Type) : Type :=
| Ok (a : A)
| Raise (e : exn).
Arguments Ok {A} a.
Arguments Raise {A} e.

#[global] Instance result_ret : MRet result := λ A a, Ok a.
#[global] Instance result_bind : MBind result := λ A B f m,
  match m with
  | Ok a => f a
  | Raise e => Raise e
  end.
#[global] Instance result_fmap : FMap result := λ A B f m,
  match m with
  | Ok a => Ok (f a)
  | Raise e => Raise e
  end.

(** ** Configuration *)

Definition TARGET_COL : string := "SalePrice".

Definition DROP_COLS : list string :=
  [ "Order"; "PID"; "Mo Sold"; "Yr Sold"; "Sale Type"; "Sale Condition";
    "Pool QC"; "Alley"; "Fence"; "Misc Feature" ].

Definition ORDINAL_COLS : list string :=
  [ "Overall Qual"; "Overall Cond"; "Exter Qual"; "Exter Cond"; "Bsmt Qual";
    "Bsmt Cond"; "Bsmt Exposure"; "BsmtFin Type 1"; "BsmtFin Type 2";
    "Heating QC"; "Kitchen Qual"; "Functional"; "Fireplace Qu";
    "Garage Finish"; "Garage Qual"; "Garage Cond"; "Land Slope"; "Lot Shape";
    "Paved Drive" ].

Definition NOMINAL_COLS : list string :=
  [ "MS Zoning"; "Street"; "Land Contour"; "Utilities"; "Lot Config";
    "Neighborhood"; "Condition 1"; "Condition 2"; "Bldg Type"; "House Style";
    "Roof Style"; "Roof Matl"; "Exterior 1st"; "Exterior 2nd"; "Mas Vnr Type";
    "Foundation"; "Heating"; "Central Air"; "Electrical"; "Garage Type" ].

Definition NUMERIC_COLS : list string :=
  [ "Lot Frontage"; "Lot Area"; "Mas Vnr Area"; "BsmtFin SF 1"; "BsmtFin SF 2";
    "Bsmt Unf SF"; "Total Bsmt SF"; "1st Flr SF"; "2nd Flr SF";
    "Low Qual Fin SF"; "Gr Liv Area"; "Bsmt Full Bath"; "Bsmt Half Bath";
    "Full Bath"; "Half Bath"; "Bedroom AbvGr"; "Kitchen AbvGr"; "TotRms AbvGrd";
    "Fireplaces"; "Garage Cars"; "Garage Area"; "Wood Deck SF"; "Open Porch SF";
    "Enclosed Porch"; "3Ssn Porch"; "Screen Porch"; "Pool Area"; "Misc Val" ].

Definition QUAL_SCALE : list string := [ "None"; "Po"; "Fa"; "TA"; "Gd"; "Ex" ].

(** The dict literal, in source order. *)
Definition ORDINAL_CATEGORIES : list (string * list string) :=
  [ ("Exter Qual", QUAL_SCALE);
    ("Exter Cond", QUAL_SCALE);
    ("Bsmt Qual", QUAL_SCALE);
    ("Bsmt Cond", QUAL_SCALE);
    ("Heating QC", QUAL_SCALE);
    ("Kitchen Qual", QUAL_SCALE);
    ("Fireplace Qu", QUAL_SCALE);
    ("Garage Qual", QUAL_SCALE);
    ("Garage Cond", QUAL_SCALE);
    ("Bsmt Exposure", [ "None"; "No"; "Mn"; "Av"; "Gd" ]);
    ("BsmtFin Type 1", [ "None"; "Unf"; "LwQ"; "Rec"; "BLQ"; "ALQ"; "GLQ" ]);
    ("BsmtFin Type 2", [ "None"; "Unf"; "LwQ"; "Rec"; "BLQ"; "ALQ"; "GLQ" ]);
    ("Garage Finish", [ "None"; "Unf"; "RFn"; "Fin" ]);
    ("Land Slope", [ "Gtl"; "Mod"; "Sev" ]);
    ("Lot Shape", [ "IR3"; "IR2"; "IR1"; "Reg" ]);
    ("Paved Drive", [ "N"; "P"; "Y" ]);
    ("Functional",
      [ "Sal"; "Sev"; "Maj2"; "Maj1"; "Mod"; "Min2"; "Min1"; "Typ" ]) ].

(** ** Tables *)

Inductive column : Type :=
| Float64 (values : list (option Q))
| Object (values : list (option string)).

Record DataFrame : Type := mkDataFrame {
  df_index : nat;                       (* number of rows *)
  df_data : list (string * column)      (* labelled columns, in order *)
}.

Definition column_length (col : column) : nat :=
  match col with Float64 v => length v | Object v => length v end.

(** [df.columns] *)
Definition columns (df : DataFrame) : list string := (df_data df).*1.

Inductive errors_mode : Type := errors_raise | errors_ignore.

(** [df.drop(columns=labels, errors=...)]: a new frame without the listed
    columns; with [errors="raise"] a listed label that is not a column is
    a [KeyError]. *)
Definition DataFrame_drop (labels : list string) (errors : errors_mode)
    (df : DataFrame) : result DataFrame :=
  let absent := filter (λ c, c ∉ columns df) labels in
  match errors, absent with
  | errors_raise, _ :: _ => Raise (KeyError absent)
  | _, _ =>
      Ok {| df_index := df_index df;
            df_data := filter (λ p, p.1 ∉ labels) (df_data df) |}
  end.



(** ** Validation *)

(** [sorted(...)] on a list of strings. *)
Definition sorted (l : list string) : list string := merge_sort String.le l.

Definition _validate_columns (df : DataFrame) (require_target : bool)
    : result unit :=
  let expected : gset string :=
    list_to_set (NUMERIC_COLS ++ NOMINAL_COLS ++ ORDINAL_COLS ++ DROP_COLS) in
  let expected :=
    if require_target then expected ∪ {[ TARGET_COL ]} else expected in
  let missing := sorted (elements (expected ∖ list_to_set (columns df))) in
  match missing with
  | [] => Ok tt
  | _ :: _ => Raise (ValueError_missing_columns missing)
  end.

(** The text of the exception: the f-string of the source, with the list
    printed the way Python prints a list of plain strings. *)
Definition repr_list (l : list string) : string :=
  "[" +:+ String.concat ", " ((λ s, "'" +:+ s +:+ "'") <$> l) +:+ "]".

Definition missing_columns_message (missing : list string) : string :=
  "Missing expected columns in dataframe: " +:+ repr_list missing.

(** ** Custom transformer *)

Record DropColumns : Type := mkDropColumns { dc_columns : list string }.

Definition DropColumns_fit (self : DropColumns) (X : DataFrame)
    (y : option column) : DropColumns := self.

Definition DropColumns_transform (self : DropColumns) (X : DataFrame)
    : result DataFrame :=
  DataFrame_drop (dc_columns self) errors_ignore X.

(** ** Split helper *)


(** ** Library estimators *)

(** A block of columns of one dtype handed to an estimator, and the
    feature matrix an estimator returns.  An output column carries the
    name [get_feature_names_out] gives it, kept structured: the source
    column and, for a one-hot indicator, the category. *)
Definition labelled (A : Type) : Type := list (string * list (option A)).

Inductive feature_name : Type :=
| Column (source : string)
| Dummy (source : string) (category : option string).

Definition matrix : Type := list (feature_name * list (option Q)).

(** The string scikit-learn prints for a feature name. *)
Definition feature_name_str (f : feature_name) : string :=
  match f with
  | Column c => c
  | Dummy c (Some cat) => c +:+ "_" +:+ cat
  | Dummy c None => c +:+ "_nan"
  end.

Definition observed {A} (col : list (option A)) : list A := omap id col.

(** *** Statistics *)

Definition Q_le (x y : Q) : Prop := Qle_bool x y.
#[global] Instance Q_le_dec : RelDecision Q_le.
Proof. intros x y. unfold Q_le. apply _. Defined.


(** [numpy.nanmedian] over the observed values; NaN when there are none.
    The mean of the two middle values is exact here, where the library
    rounds it to a float. *)
Definition median (l : list Q) : option Q :=
  let s := merge_sort Q_le l in
  let n := length s in
  if bool_decide (n = 0) then None
  else if Nat.even n then
    a ← s !! (n / 2 - 1); b ← s !! (n / 2); Some (Qred ((a + b) / 2))
  else s !! (n / 2).

Definition count (x : string) (l : list string) : nat :=
  length (filter (x =.) l).

(** The most frequent observed label, the smallest one on a tie; NaN when
    there are none. *)
Definition most_frequent (l : list string) : option string :=
  let best := max_list ((λ x, count x l) <$> l) in
  head (sorted (filter (λ x, count x l = best) l)).

(** *** SimpleImputer *)

Record SimpleImputer (A : Type) : Type := mkSimpleImputer {
  statistic : list A → option A;  (* of the observed values of a column *)
  keeps_empty : bool              (* strategy is constant *)
}.
Arguments statistic {A} _ _.
Arguments keeps_empty {A} _.

Definition SimpleImputer_median : SimpleImputer Q :=
  {| statistic := median; keeps_empty := false |}.
Definition SimpleImputer_most_frequent : SimpleImputer string :=
  {| statistic := most_frequent; keeps_empty := false |}.
Definition SimpleImputer_constant {A} (fill_value : A) : SimpleImputer A :=
  {| statistic := λ _, Some fill_value; keeps_empty := true |}.

(** [statistics_], one entry per input column. *)
Definition SimpleImputer_fit {A} (self : SimpleImputer A) (X : labelled A)
    : list (option A) :=
  (λ p, statistic self (observed p.2)) <$> X.

Definition fill {A} (stat : option A) (col : list (option A))
    : list (option A) :=
  (λ x, match x with Some v => Some v | None => stat end) <$> col.

(** Columns whose statistic is NaN (no observed value at fit) are
    discarded unless the strategy is constant; in the others every
    missing cell receives the statistic. *)
Definition SimpleImputer_transform {A} (self : SimpleImputer A)
    (statistics_ : list (option A)) (X : labelled A) : labelled A :=
  omap (λ '(stat, (c, col)),
          if keeps_empty self || bool_decide (is_Some stat)
          then Some (c, fill stat col) else None)
       (zip statistics_ X).

(** *** OneHotEncoder *)

Inductive handle_unknown : Type :=
| handle_unknown_error
| handle_unknown_ignore.

(** [categories="auto"]: the distinct observed labels in sorted order, NaN
    last when it occurs. *)
Definition unique (col : list (option string)) : list (option string) :=
  (Some <$> sorted (remove_dups (observed col)))
  ++ (if bool_decide (None ∈ col) then [None] else []).

Definition OneHotEncoder_fit (X : labelled string) : list (list (option string)) :=
  (λ p, unique p.2) <$> X.

Definition indicator (cat : option string) (col : list (option string))
    : list (option Q) :=
  (λ x, Some (if bool_decide (x = cat) then 1%Q else 0%Q)) <$> col.

(** The indicator columns of one source column, one per category. *)
Definition dummies (c : string) (cats : list (option string))
    (col : list (option string)) : matrix :=
  (λ cat, (Dummy c cat, indicator cat col)) <$> cats.

Definition OneHotEncoder_transform (hu : handle_unknown)
    (categories_ : list (list (option string))) (X : labelled string)
    : result matrix :=
  blocks ← mapM (λ '(cats, (c, col)),
                   let block := dummies c cats col in
                   match hu with
                   | handle_unknown_ignore => Ok block
                   | handle_unknown_error =>
                       if bool_decide (Forall (λ x, x ∈ cats) col) then Ok block
                       else Raise (ValueError_unknown_category c)
                   end)
                (zip categories_ X);
  mret (concat blocks).

(** *** OrdinalEncoder *)

Inductive ordinal_unknown : Type :=
| ordinal_unknown_error
| use_encoded_value (unknown_value : Z).

(** Position of a label in the scale of its column. *)
Definition rank (cats : list string) (x : option string) : option nat :=
  s ← x; fst <$> list_find (s =.) cats.

Definition OrdinalEncoder_fit (categories : list (list string))
    (hu : ordinal_unknown) (X : labelled string) : result (list (list string)) :=
  if bool_decide (length categories = length X) then
    match hu with
    | use_encoded_value _ => Ok categories
    | ordinal_unknown_error =>
        _ ← mapM (λ '(cats, (c, col)),
                    if bool_decide (Forall (λ x, is_Some (rank cats x)) col)
                    then Ok tt else Raise (ValueError_unknown_category c))
                 (zip categories X);
        mret categories
    end
  else Raise ValueError_shape.

Definition encode (hu : ordinal_unknown) (c : string) (cats : list string)
    (x : option string) : result (option Q) :=
  match rank cats x, hu with
  | Some i, _ => Ok (Some (inject_Z (Z.of_nat i)))
  | None, use_encoded_value unknown_value => Ok (Some (inject_Z unknown_value))
  | None, ordinal_unknown_error => Raise (ValueError_unknown_category c)
  end.

Definition OrdinalEncoder_transform (hu : ordinal_unknown)
    (categories_ : list (list string)) (X : labelled string) : result matrix :=
  mapM (λ '(cats, (c, col)),
          codes ← mapM (encode hu c cats) col; mret (Column c, codes))
       (zip categories_ X).

(** ** ColumnTransformer *)

(** The inner pipelines a [ColumnTransformer] entry can hold: an imputer
    alone, an imputer followed by a one-hot encoder, an imputer followed by
    an ordinal encoder. *)
Inductive transformer : Type :=
| numeric_steps (imputer : SimpleImputer Q)
| onehot_steps (imputer : SimpleImputer string) (hu : handle_unknown)
| ordinal_steps (imputer : SimpleImputer string)
    (categories : list (list string)) (hu : ordinal_unknown).

(** What fitting an inner pipeline learns. *)
Inductive fitted : Type :=
| numeric_fitted (statistics_ : list (option Q))
| onehot_fitted (statistics_ : list (option string))
    (categories_ : list (list (option string)))
| ordinal_fitted (statistics_ : list (option string))
    (categories_ : list (list string)).

Record ColumnTransformer : Type := mkColumnTransformer {
  transformers : list (string * transformer * list string);
  transformers_ : option (list fitted)       (* [None] until fitted *)
}.

(** Selection of one column by label: the label must denote exactly one
    column of the frame, and the column must have one cell per row of the
    frame (a frame is rectangular; the model reports a column of another
    length as [ValueError_shape]). *)
Definition select_column (X : DataFrame) (c : string) : result column :=
  match filter (λ p, p.1 = c) (df_data X) with
  | [(_, col)] =>
      if bool_decide (column_length col = df_index X) then Ok col
      else Raise ValueError_shape
  | _ => Raise (ValueError_column c)
  end.

Definition float_column (X : DataFrame) (c : string)
    : result (string * list (option Q)) :=
  col ← select_column X c;
  match col with
  | Float64 v => Ok (c, v)
  | Object _ => Raise (TypeError_dtype c)
  end.

Definition object_column (X : DataFrame) (c : string)
    : result (string * list (option string)) :=
  col ← select_column X c;
  match col with
  | Object v => Ok (c, v)
  | Float64 _ => Raise (TypeError_dtype c)
  end.

(** [X[cols]] for a group of float columns, and for a group of label
    columns. *)
Definition select_float (X : DataFrame) (cols : list string)
    : result (labelled Q) :=
  mapM (float_column X) cols.

Definition select_object (X : DataFrame) (cols : list string)
    : result (labelled string) :=
  mapM (object_column X) cols.

(** Input validation of the imputer, the first step of every inner
    pipeline, at fit and at transform: an array without samples is a
    [ValueError]. *)
Definition check_array {A} (n_samples : nat) (Xs : labelled A)
    : result (labelled A) :=
  if bool_decide (n_samples = 0) then Raise ValueError_no_samples else Ok Xs.

Definition transformer_fit (t : transformer) (cols : list string)
    (X : DataFrame) : result fitted :=
  match t with
  | numeric_steps imputer =>
      Xs ← select_float X cols;
      Xs ← check_array (df_index X) Xs;
      mret (numeric_fitted (SimpleImputer_fit imputer Xs))
  | onehot_steps imputer hu =>
      Xs ← select_object X cols;
      Xs ← check_array (df_index X) Xs;
      let statistics_ := SimpleImputer_fit imputer Xs in
      let Xi := SimpleImputer_transform imputer statistics_ Xs in
      mret (onehot_fitted statistics_ (OneHotEncoder_fit Xi))
  | ordinal_steps imputer categories hu =>
      Xs ← select_object X cols;
      Xs ← check_array (df_index X) Xs;
      let statistics_ := SimpleImputer_fit imputer Xs in
      let Xi := SimpleImputer_transform imputer statistics_ Xs in
      categories_ ← OrdinalEncoder_fit categories hu Xi;
      mret (ordinal_fitted statistics_ categories_)
  end.

Definition transformer_transform (t : transformer) (f : fitted)
    (cols : list string) (X : DataFrame) : result matrix :=
  match t, f with
  | numeric_steps imputer, numeric_fitted statistics_ =>
      Xs ← select_float X cols;
      Xs ← check_array (df_index X) Xs;
      mret ((λ p, (Column p.1, p.2))
            <$> SimpleImputer_transform imputer statistics_ Xs)
  | onehot_steps imputer hu, onehot_fitted statistics_ categories_ =>
      Xs ← select_object X cols;
      Xs ← check_array (df_index X) Xs;
      OneHotEncoder_transform hu categories_
        (SimpleImputer_transform imputer statistics_ Xs)
  | ordinal_steps imputer _ hu, ordinal_fitted statistics_ categories_ =>
      Xs ← select_object X cols;
      Xs ← check_array (df_index X) Xs;
      OrdinalEncoder_transform hu categories_
        (SimpleImputer_transform imputer statistics_ Xs)
  | _, _ => Raise NotFittedError
  end.

(** [fit] learns every entry afresh from [X]; [y] is accepted and not
    used.  Columns outside the entries are dropped ([remainder="drop"]). *)
Definition ColumnTransformer_fit (self : ColumnTransformer) (X : DataFrame)
    (y : option column) : result ColumnTransformer :=
  fs ← mapM (λ '(_, t, cols), transformer_fit t cols X) (transformers self);
  mret {| transformers := transformers self; transformers_ := Some fs |}.

(** [transform] stacks the blocks of the entries side by side, in the
    order of the entries. *)
Definition ColumnTransformer_transform (self : ColumnTransformer)
    (X : DataFrame) : result matrix :=
  match transformers_ self with
  | None => Raise NotFittedError
  | Some fs =>
      blocks ← mapM (λ '((_, t, cols), f), transformer_transform t f cols X)
                    (zip (transformers self) fs);
      mret (concat blocks)
  end.

(** ** Preprocessor *)

Definition dict_getitem {V} (d : list (string * V)) (k : string) : result V :=
  match list_find (λ p, p.1 = k) d with
  | Some (_, (_, v)) => Ok v
  | None => Raise (KeyError [k])
  end.

Definition ordinal_numeric : list string := [ "Overall Qual"; "Overall Cond" ].

Definition ordinal_encode : list string :=
  filter (λ c, c ∉ ordinal_numeric) ORDINAL_COLS.

Definition make_preprocessor : result ColumnTransformer :=
  categories_in_order ← mapM (dict_getitem ORDINAL_CATEGORIES) ordinal_encode;
  let numeric_pipe := numeric_steps SimpleImputer_median in
  let nominal_pipe :=
    onehot_steps SimpleImputer_most_frequent handle_unknown_ignore in
  let ordinal_pipe :=
    ordinal_steps (SimpleImputer_constant "None") categories_in_order
                  (use_encoded_value (-1)) in
  let ordinal_numeric_pipe := numeric_steps SimpleImputer_median in
  mret {| transformers :=
            [ ("num", numeric_pipe, NUMERIC_COLS);
              ("nom", nominal_pipe, NOMINAL_COLS);
              ("ord_num", ordinal_numeric_pipe, ordinal_numeric);
              ("ord", ordinal_pipe, ordinal_encode) ];
          transformers_ := None |}.

(** ** Full pipeline *)

Record Pipeline : Type := mkPipeline {
  drop_step : DropColumns;
  prep_step : ColumnTransformer
}.

Definition make_full_pipeline : result Pipeline :=
  prep ← make_preprocessor;
  mret {| drop_step := mkDropColumns DROP_COLS; prep_step := prep |}.

Definition Pipeline_fit (self : Pipeline) (X : DataFrame) (y : option column)
    : result Pipeline :=
  let drop' := DropColumns_fit (drop_step self) X y in
  Xt ← DropColumns_transform drop' X;
  prep' ← ColumnTransformer_fit (prep_step self) Xt y;
  mret {| drop_step := drop'; prep_step := prep' |}.

Definition Pipeline_transform (self : Pipeline) (X : DataFrame)
    : result matrix :=
  Xt ← DropColumns_transform (drop_step self) X;
  ColumnTransformer_transform (prep_step self) Xt.

(** The names of the columns of a feature matrix, in order. *)
Definition feature_names (M : matrix) : list feature_name := M.*1.

(** ** Vocabulary of the statements *)

(** The expected schema as a list: every taxonomy column, the dropped
    group included, and the target when it is required. *)
Definition expected_columns (require_target : bool) : list string :=
  NUMERIC_COLS ++ NOMINAL_COLS ++ ORDINAL_COLS ++ DROP_COLS
  ++ (if require_target then [TARGET_COL] else []).


(** The sorted difference the validator computes, read over
    [expected_columns]. *)
Definition missing_columns (df : DataFrame) (require_target : bool)
    : list string :=
  sorted (elements ((list_to_set (expected_columns require_target) : gset string)
                    ∖ list_to_set (columns df))).

(** A frame holds what the preprocessor reads when every column of the
    four groups is selectable: its label denotes exactly one column, of the
    dtype of its group. *)
Definition ok {A} (m : result A) : bool :=
  match m with Ok _ => true | Raise _ => false end.

Definition required_columns_ok (X : DataFrame) : bool :=
  forallb (λ c, ok (float_column X c)) (NUMERIC_COLS ++ ordinal_numeric)
  && forallb (λ c, ok (object_column X c)) (NOMINAL_COLS ++ ordinal_encode).

(** The cells of a column of a frame, by group dtype. *)
Definition floats (X : DataFrame) (c : string) : list (option Q) :=
  match float_column X c with Ok (_, v) => v | Raise _ => [] end.

Definition labels (X : DataFrame) (c : string) : list (option string) :=
  match object_column X c with Ok (_, v) => v | Raise _ => [] end.

(** The configured scale of an ordinal-categorical column. *)
Definition scale (c : string) : list string :=
  match dict_getitem ORDINAL_CATEGORIES c with Ok s => s | Raise _ => [] end.

(** *** Column-by-column reading of the fitted pipeline

    What one source column contributes to the feature matrix, given its
    cells in the training frame and in the frame being transformed. *)

Definition numeric_feature (c : string) (train batch : list (option Q))
    : matrix :=
  match median (observed train) with
  | Some m => [(Column c, fill (Some m) batch)]
  | None => []
  end.

Definition nominal_features (c : string) (train batch : list (option string))
    : matrix :=
  match most_frequent (observed train) with
  | Some m => dummies c (unique (fill (Some m) train)) (fill (Some m) batch)
  | None => []
  end.

Definition code (unknown_value : Z) (cats : list string) (x : option string)
    : option Q :=
  Some (match rank cats x with
        | Some i => inject_Z (Z.of_nat i)
        | None => inject_Z unknown_value
        end).

Definition ordinal_feature (c : string) (batch : list (option string))
    : matrix :=
  [(Column c, code (-1) (scale c) <$> fill (Some "None") batch)].

Definition reference_transform (T U : DataFrame) : matrix :=
  (NUMERIC_COLS ≫= λ c, numeric_feature c (floats T c) (floats U c))
  ++ (NOMINAL_COLS ≫= λ c, nominal_features c (labels T c) (labels U c))
  ++ (ordinal_numeric ≫= λ c, numeric_feature c (floats T c) (floats U c))
  ++ (ordinal_encode ≫= λ c, ordinal_feature c (labels U c)).

(** *** The pipeline object and what fitting stores in it *)

(** The entries [make_preprocessor] configures. *)
Definition configured_transformers : list (string * transformer * list string) :=
  [ ("num", numeric_steps SimpleImputer_median, NUMERIC_COLS);
    ("nom", onehot_steps SimpleImputer_most_frequent handle_unknown_ignore,
     NOMINAL_COLS);
    ("ord_num", numeric_steps SimpleImputer_median, ordinal_numeric);
    ("ord", ordinal_steps (SimpleImputer_constant "None")
              (scale <$> ordinal_encode) (use_encoded_value (-1)),
     ordinal_encode) ].

(** The object [make_full_pipeline] builds, in a given fitted state. *)
Definition full_pipeline (state : option (list fitted)) : Pipeline :=
  {| drop_step := mkDropColumns DROP_COLS;
     prep_step := {| transformers := configured_transformers;
                     transformers_ := state |} |}.

(** The state a fit on a training frame leaves behind. *)
Definition learned (T : DataFrame) : list fitted :=
  let Xnum := (λ c, (c, floats T c)) <$> NUMERIC_COLS in
  let Xnom := (λ c, (c, labels T c)) <$> NOMINAL_COLS in
  let Xordnum := (λ c, (c, floats T c)) <$> ordinal_numeric in
  let Xord := (λ c, (c, labels T c)) <$> ordinal_encode in
  let nom_statistics := SimpleImputer_fit SimpleImputer_most_frequent Xnom in
  [ numeric_fitted (SimpleImputer_fit SimpleImputer_median Xnum);
    onehot_fitted nom_statistics
      (OneHotEncoder_fit
         (SimpleImputer_transform SimpleImputer_most_frequent nom_statistics Xnom));
    numeric_fitted (SimpleImputer_fit SimpleImputer_median Xordnum);
    ordinal_fitted (SimpleImputer_fit (SimpleImputer_constant "None") Xord)
      (scale <$> ordinal_encode) ].

(** *** Names of the output columns

    [fitted_feature_names T] lists the output columns of a pipeline fitted
    on [T]: a column that had no observed value in [T] is absent from the
    numeric and nominal groups, and the indicators of a nominal column
    follow the sorted order of its observed labels. *)
Definition has_observed {A} (col : list (option A)) : bool :=
  match observed col with [] => false | _ :: _ => true end.

Definition fitted_feature_names (T : DataFrame) : list feature_name :=
  (Column <$> filter (λ c, has_observed (floats T c)) NUMERIC_COLS)
  ++ (filter (λ c, has_observed (labels T c)) NOMINAL_COLS
      ≫= λ c, (λ s, Dummy c (Some s))
               <$> sorted (remove_dups (observed (labels T c))))
  ++ (Column <$> filter (λ c, has_observed (floats T c)) ordinal_numeric)
  ++ (Column <$> ordinal_encode).

(** The same list with the indicators of a nominal column in the order in
    which its labels are first seen in [T], and no column left out. *)
Fixpoint first_seen (l : list string) : list string :=
  match l with
  | [] => []
  | x :: l => x :: filter (λ y, y ≠ x) (first_seen l)
  end.

Definition first_seen_feature_names (T : DataFrame) : list feature_name :=
  (Column <$> NUMERIC_COLS)
  ++ (NOMINAL_COLS
      ≫= λ c, (λ s, Dummy c (Some s)) <$> first_seen (observed (labels T c)))
  ++ (Column <$> ordinal_numeric)
  ++ (Column <$> ordinal_encode).

(** ** Worked example: a small frame with the whole schema *)

Definition example_frame (lot_area : list (option Q))
    (zoning slope qual : list (option string)) : DataFrame :=
  let rows := length lot_area in
  {| df_index := rows;
     df_data :=
       ((λ c, (c, Object (replicate rows (Some "x")))) <$> DROP_COLS)
       ++ ((λ c, (c, Float64 (if bool_decide (c = "Lot Area") then lot_area
                              else replicate rows (Some 1%Q))))
           <$> (NUMERIC_COLS ++ ordinal_numeric))
       ++ ((λ c, (c, Object (if bool_decide (c = "MS Zoning") then zoning
                             else replicate rows (Some "A"))))
           <$> NOMINAL_COLS)
       ++ ((λ c, (c, Object (if bool_decide (c = "Land Slope") then slope
                             else if bool_decide (c = "Exter Qual") then qual
                             else replicate rows (Some "TA"))))
           <$> ordinal_encode)
       ++ [(TARGET_COL, Float64 (replicate rows (Some 100%Q)))] |}.

Definition train_frame : DataFrame :=
  example_frame [Some 3%Q; None; Some 8%Q]
                [Some "RL"; Some "FV"; Some "RL"]
                [Some "Gtl"; Some "Mod"; Some "Sev"]
                [Some "TA"; Some "Ex"; None].

Definition test_frame : DataFrame :=
  example_frame [None; Some 5%Q]
                [Some "C (all)"; None]
                [None; Some "Sev"]
                [None; Some "Excellent"].

(** The pipeline after a fit on [train_frame]. *)
Definition fitted_example : Pipeline :=
  full_pipeline (Some (learned train_frame)).


(** [train_frame] without the columns Lot Area and SalePrice. *)
Definition incomplete_frame : DataFrame :=
  {| df_index := df_index train_frame;
     df_data := filter (λ p, p.1 ∉ [ "SalePrice"; "Lot Area" ])
                       (df_data train_frame) |}.



(** ** Vocabulary of the further properties *)

(** [train_frame] with its columns in reverse order. *)
Definition reversed_frame : DataFrame :=
  {| df_index := df_index train_frame;
     df_data := reverse (df_data train_frame) |}.

(** [train_frame] without the target and the drop-list columns. *)
Definition bare_frame : DataFrame :=
  {| df_index := df_index train_frame;
     df_data := filter (λ p, p.1 ∉ TARGET_COL :: DROP_COLS)
                       (df_data train_frame) |}.
(** * Properties *)

(** ** Validator *)

Lemma sorted_elem_of (l : list string) (c : string) : c ∈ sorted l ↔ c ∈ l.
Proof. unfold sorted. by rewrite merge_sort_Permutation. Qed.

Lemma sorted_Sorted (l : list string) : Sorted String.le (sorted l).
Proof. apply (Sorted_merge_sort String.le). Qed.

Lemma sorted_NoDup (l : list string) : NoDup l → NoDup (sorted l).
Proof. unfold sorted. by rewrite merge_sort_Permutation. Qed.

Lemma sorted_nil_inv (l : list string) : sorted l = [] → l = [].
Proof.
  intros H. apply Permutation_nil_r. rewrite <- H. unfold sorted.
  by rewrite merge_sort_Permutation.
Qed.

Lemma validate_columns_unfold (df : DataFrame) (require_target : bool) :
  _validate_columns df require_target =
  match missing_columns df require_target with
  | [] => Ok tt
  | _ :: _ =>
      Raise (ValueError_missing_columns (missing_columns df require_target))
  end.
Proof. by destruct require_target. Qed.

Lemma elem_of_missing_columns (df : DataFrame) (require_target : bool) c :
  c ∈ missing_columns df require_target
  ↔ c ∈ expected_columns require_target ∧ c ∉ columns df.
Proof.
  unfold missing_columns, expected_columns.
  generalize NUMERIC_COLS NOMINAL_COLS ORDINAL_COLS DROP_COLS TARGET_COL.
  intros l1 l2 l3 l4 t.
  rewrite sorted_elem_of, elem_of_elements, elem_of_difference.
  rewrite (elem_of_list_to_set (C:=gset string) c (columns df)).
  rewrite elem_of_list_to_set.
  destruct require_target;
    rewrite !elem_of_app, ?elem_of_nil, ?list_elem_of_singleton; tauto.
Qed.

Lemma missing_columns_Sorted (df : DataFrame) (require_target : bool) :
  Sorted String.le (missing_columns df require_target).
Proof. apply sorted_Sorted. Qed.

Lemma missing_columns_NoDup (df : DataFrame) (require_target : bool) :
  NoDup (missing_columns df require_target).
Proof. apply sorted_NoDup, NoDup_elements. Qed.

Lemma validate_columns_Ok (df : DataFrame) (require_target : bool) :
  (∀ c, c ∈ expected_columns require_target → c ∈ columns df) →
  _validate_columns df require_target = Ok tt.
Proof.
  intros Hall. rewrite validate_columns_unfold.
  destruct (missing_columns df require_target) as [|m ms] eqn:Hm; [done|].
  destruct (proj1 (elem_of_missing_columns df require_target m)) as [? Habs].
  - rewrite Hm. by left.
  - destruct Habs. by apply Hall.
Qed.

Lemma validate_columns_Raise (df : DataFrame) (require_target : bool) c :
  c ∈ expected_columns require_target → c ∉ columns df →
  _validate_columns df require_target
  = Raise (ValueError_missing_columns (missing_columns df require_target)).
Proof.
  intros Hexp Habs. rewrite validate_columns_unfold.
  destruct (missing_columns df require_target) as [|m ms] eqn:Hm; [|done].
  assert (Hin : c ∈ missing_columns df require_target)
    by (by apply elem_of_missing_columns).
  rewrite Hm in Hin. by apply elem_of_nil in Hin.
Qed.

(** C3. [_validate_columns] raises exactly when an expected column (any
    taxonomy column, the dropped group included, and the target when
    required) is absent; the exception then carries every absent expected
    column, each once, in sorted order; otherwise the call returns
    normally, whatever other columns the frame has. *)
Theorem validate_columns_spec (df : DataFrame) (require_target : bool) :
  ((∃ e, _validate_columns df require_target = Raise e)
   ↔ (∃ c, c ∈ expected_columns require_target ∧ c ∉ columns df))
  ∧ (∀ e, _validate_columns df require_target = Raise e →
       ∃ missing,
         e = ValueError_missing_columns missing
         ∧ Sorted String.le missing ∧ NoDup missing
         ∧ ∀ c, c ∈ missing
                ↔ c ∈ expected_columns require_target ∧ c ∉ columns df)
  ∧ ((∀ c, c ∈ expected_columns require_target → c ∈ columns df) →
       _validate_columns df require_target = Ok tt).
Proof.
  rewrite validate_columns_unfold.
  pose proof (elem_of_missing_columns df require_target) as Hel.
  pose proof (missing_columns_Sorted df require_target) as Hs.
  pose proof (missing_columns_NoDup df require_target) as Hn.
  destruct (missing_columns df require_target) as [|m ms] eqn:Hm.
  - split; [|split].
    + split; [by intros [e ?]|].
      intros (c & Hc). apply Hel in Hc. by apply elem_of_nil in Hc.
    + by intros e ?.
    + done.
  - split; [|split].
    + split; [|by eauto].
      intros _. exists m. apply Hel. by left.
    + intros e [= <-]. eauto.
    + intros Hall. destruct (Hel m) as [Hin _].
      destruct Hin as [Hexp Habs]; [by left|]. by destruct Habs; apply Hall.
Qed.

(** ** Column dropper *)

Lemma DataFrame_drop_ignore (labels : list string) (df : DataFrame) :
  DataFrame_drop labels errors_ignore df =
  Ok {| df_index := df_index df;
        df_data := filter (λ p, p.1 ∉ labels) (df_data df) |}.
Proof.
  unfold DataFrame_drop. by destruct (filter (λ c, c ∉ columns df) labels).
Qed.

Lemma filter_fixpoint {A} (P : A → Prop) `{∀ x, Decision (P x)} (l : list A) :
  filter P (filter P l) = filter P l.
Proof.
  induction l as [|x l IH]; [done|].
  rewrite filter_cons. destruct (decide (P x)); [|done].
  rewrite filter_cons. destruct (decide (P x)); [|done]. by rewrite IH.
Qed.

(** C7. The dropper returns a new frame that has lost exactly the listed
    columns and keeps every other column, with its cells and in its place;
    a listed label that is not a column raises nothing; dropping again
    changes nothing. *)
Theorem DropColumns_transform_spec (self : DropColumns) (X : DataFrame) :
  ∃ X', DropColumns_transform self X = Ok X'
    ∧ df_index X' = df_index X
    ∧ (∀ c col, (c, col) ∈ df_data X'
                ↔ (c, col) ∈ df_data X ∧ c ∉ dc_columns self)
    ∧ (∀ c, c ∈ columns X' ↔ c ∈ columns X ∧ c ∉ dc_columns self)
    ∧ df_data X' `sublist_of` df_data X
    ∧ DropColumns_transform self X' = Ok X'.
Proof.
  unfold DropColumns_transform. rewrite DataFrame_drop_ignore.
  eexists. split; [done|]. cbn [df_index df_data].
  split; [done|]. split; [|split; [|split]].
  - intros c col. by rewrite list_elem_of_filter, (comm (∧)).
  - intros c. unfold columns. cbn [df_data]. rewrite !list_elem_of_fmap. split.
    + intros ([c' col] & -> & Hin). apply list_elem_of_filter in Hin as [? ?].
      split; [|done]. by exists (c', col).
    + intros [([c' col] & -> & Hin) Hn]. exists (c', col). split; [done|].
      by apply list_elem_of_filter.
  - apply sublist_filter.
  - rewrite DataFrame_drop_ignore. cbn [df_index df_data].
    by rewrite filter_fixpoint.
Qed.

(** ** Split helper *)





(** ** The result monad *)

Section mapM_result.
Context {A B : Type} (f : A → result B).

Lemma mapM_result_nil : mapM f [] = Ok [].
Proof. reflexivity. Qed.

Lemma mapM_result_cons x l :
  mapM f (x :: l) = y ← f x; k ← mapM f l; mret (y :: k).
Proof. reflexivity. Qed.

Lemma mapM_result_pure (g : A → B) l :
  (∀ x, x ∈ l → f x = Ok (g x)) → mapM f l = Ok (g <$> l).
Proof.
  induction l as [|x l IH]; intros Hf; [done|].
  rewrite mapM_result_cons, (Hf x), IH by (try intros; set_solver).
  reflexivity.
Qed.

Lemma mapM_result_ext (g : A → result B) l :
  (∀ x, x ∈ l → f x = g x) → mapM f l = mapM g l.
Proof.
  induction l as [|x l IH]; intros Hf; [done|].
  rewrite !mapM_result_cons, (Hf x), IH by (try intros; set_solver).
  reflexivity.
Qed.

Lemma mapM_result_Ok l k :
  mapM f l = Ok k → Forall2 (λ x y, f x = Ok y) l k.
Proof.
  revert k. induction l as [|x l IH]; intros k.
  - intros [= <-]. constructor.
  - rewrite mapM_result_cons. destruct (f x) as [y|e] eqn:Hx; [|done].
    cbn [mbind result_bind]. destruct (mapM f l) as [k'|e]; [|done].
    intros [= <-]. constructor; [done|]. by apply IH.
Qed.

Lemma mapM_result_Ok_elem l k :
  mapM f l = Ok k → ∀ x, x ∈ l → ∃ y, f x = Ok y.
Proof.
  intros H%mapM_result_Ok. induction H as [|x y l k Hx _ IH].
  - by intros x ?%elem_of_nil.
  - intros x' [->|Hin]%elem_of_cons; eauto.
Qed.
End mapM_result.

(** ** Column selection *)

Lemma select_column_drop (dropped : list string) (X : DataFrame) (c : string) :
  c ∉ dropped →
  select_column {| df_index := df_index X;
                   df_data := filter (λ p, p.1 ∉ dropped) (df_data X) |} c
  = select_column X c.
Proof.
  intros Hc. unfold select_column. cbn [df_data].
  assert (Heq : filter (λ p : string * column, p.1 = c)
                  (filter (λ p, p.1 ∉ dropped) (df_data X))
                = filter (λ p, p.1 = c) (df_data X)); [|by rewrite Heq].
  induction (df_data X) as [|[c' col] l IH]; [done|].
  rewrite (filter_cons (λ p, p.1 ∉ dropped)). cbn [fst].
  destruct (decide (c' ∉ dropped)) as [Hin|Hin].
  - rewrite !filter_cons, IH. done.
  - rewrite IH, filter_cons. cbn [fst].
    destruct (decide (c' = c)) as [->|]; [|done]. by destruct Hin.
Qed.

Lemma float_column_label X c p : float_column X c = Ok p → p = (c, floats X c).
Proof.
  unfold floats. intros Hp. rewrite Hp. unfold float_column in Hp.
  destruct (select_column X c) as [[v|v]|e]; cbn in Hp; [|done..].
  by injection Hp as <-.
Qed.

Lemma object_column_label X c p : object_column X c = Ok p → p = (c, labels X c).
Proof.
  unfold labels. intros Hp. rewrite Hp. unfold object_column in Hp.
  destruct (select_column X c) as [[v|v]|e]; cbn in Hp; [done| |done].
  by injection Hp as <-.
Qed.

Lemma select_float_Ok X cols Xs :
  select_float X cols = Ok Xs → Xs = (λ c, (c, floats X c)) <$> cols.
Proof.
  intros H%mapM_result_Ok. induction H as [|c p cols Xs Hp _ IH]; [done|].
  cbn [fmap list_fmap]. by rewrite (float_column_label _ _ _ Hp), IH.
Qed.

Lemma select_object_Ok X cols Xs :
  select_object X cols = Ok Xs → Xs = (λ c, (c, labels X c)) <$> cols.
Proof.
  intros H%mapM_result_Ok. induction H as [|c p cols Xs Hp _ IH]; [done|].
  cbn [fmap list_fmap]. by rewrite (object_column_label _ _ _ Hp), IH.
Qed.

Lemma select_float_ok X cols :
  forallb (λ c, ok (float_column X c)) cols = true →
  select_float X cols = Ok ((λ c, (c, floats X c)) <$> cols).
Proof.
  intros H. apply mapM_result_pure. intros c Hc.
  rewrite forallb_forall in H. apply list_elem_of_In, H in Hc.
  destruct (float_column X c) as [p|e] eqn:Hp; [|done].
  by rewrite (float_column_label _ _ _ Hp).
Qed.

Lemma select_object_ok X cols :
  forallb (λ c, ok (object_column X c)) cols = true →
  select_object X cols = Ok ((λ c, (c, labels X c)) <$> cols).
Proof.
  intros H. apply mapM_result_pure. intros c Hc.
  rewrite forallb_forall in H. apply list_elem_of_In, H in Hc.
  destruct (object_column X c) as [p|e] eqn:Hp; [|done].
  by rewrite (object_column_label _ _ _ Hp).
Qed.

(** ** The blocks of the preprocessor, column by column *)

Section blocks.
Context {A : Type} (ft fu : string → list (option A)).

Lemma length_SimpleImputer_constant (v : A) (cols : list string) :
  length (SimpleImputer_transform (SimpleImputer_constant v)
            (SimpleImputer_fit (SimpleImputer_constant v)
               ((λ c, (c, ft c)) <$> cols))
            ((λ c, (c, fu c)) <$> cols)) = length cols.
Proof.
  unfold SimpleImputer_transform, SimpleImputer_fit.
  induction cols as [|c cols IH]; [done|].
  cbn [fmap list_fmap zip zip_with omap list_omap keeps_empty
       SimpleImputer_constant orb length]. by rewrite <- IH.
Qed.
End blocks.

Lemma numeric_block_fused (ft fu : string → list (option Q)) cols :
  (λ p, (Column p.1, p.2))
  <$> SimpleImputer_transform SimpleImputer_median
        (SimpleImputer_fit SimpleImputer_median ((λ c, (c, ft c)) <$> cols))
        ((λ c, (c, fu c)) <$> cols)
  = cols ≫= λ c, numeric_feature c (ft c) (fu c).
Proof.
  unfold SimpleImputer_transform, SimpleImputer_fit.
  induction cols as [|c cols IH]; [done|].
  cbn [fmap list_fmap zip zip_with omap list_omap keeps_empty statistic
       SimpleImputer_median orb mbind list_bind snd fst].
  unfold numeric_feature at 1.
  destruct (median (observed (ft c))) as [m|].
  - rewrite bool_decide_eq_true_2 by eauto. cbn [fmap list_fmap app fst snd].
    by rewrite <- IH.
  - rewrite bool_decide_eq_false_2 by (by intros [? ?]). cbn [app].
    by rewrite <- IH.
Qed.

Lemma OneHotEncoder_transform_ignore categories_ X :
  OneHotEncoder_transform handle_unknown_ignore categories_ X
  = Ok (concat ((λ p : list (option string) * (string * list (option string)),
                   dummies p.2.1 p.1 p.2.2)
                <$> zip categories_ X)).
Proof.
  unfold OneHotEncoder_transform.
  erewrite mapM_result_pure; [reflexivity|]. by intros [cats [c col]] _.
Qed.

Lemma nominal_block_fused (ft fu : string → list (option string)) cols :
  let Xt := (λ c, (c, ft c)) <$> cols in
  let statistics_ := SimpleImputer_fit SimpleImputer_most_frequent Xt in
  OneHotEncoder_transform handle_unknown_ignore
    (OneHotEncoder_fit
       (SimpleImputer_transform SimpleImputer_most_frequent statistics_ Xt))
    (SimpleImputer_transform SimpleImputer_most_frequent statistics_
       ((λ c, (c, fu c)) <$> cols))
  = Ok (cols ≫= λ c, nominal_features c (ft c) (fu c)).
Proof.
  cbv zeta. rewrite OneHotEncoder_transform_ignore. f_equal.
  unfold SimpleImputer_transform, SimpleImputer_fit, OneHotEncoder_fit.
  induction cols as [|c cols IH]; [done|].
  cbn [fmap list_fmap zip zip_with omap list_omap keeps_empty statistic
       SimpleImputer_most_frequent orb mbind list_bind snd fst].
  unfold nominal_features at 1.
  destruct (most_frequent (observed (ft c))) as [m|].
  - rewrite bool_decide_eq_true_2 by eauto.
    cbn [fmap list_fmap zip zip_with concat fst snd]. by rewrite <- IH.
  - rewrite bool_decide_eq_false_2 by (by intros [? ?]). by rewrite <- IH.
Qed.

Lemma encode_use_encoded_value u c cats x :
  encode (use_encoded_value u) c cats x = Ok (code u cats x).
Proof. unfold encode, code. by destruct (rank cats x). Qed.

Lemma OrdinalEncoder_transform_use_encoded_value u categories_ X :
  OrdinalEncoder_transform (use_encoded_value u) categories_ X
  = Ok ((λ p : list string * (string * list (option string)),
           (Column p.2.1, code u p.1 <$> p.2.2))
        <$> zip categories_ X).
Proof.
  unfold OrdinalEncoder_transform. apply mapM_result_pure.
  intros [cats [c col]] _.
  erewrite mapM_result_pure; [reflexivity|].
  intros x _. apply encode_use_encoded_value.
Qed.

Lemma ordinal_block_fused (v : string) (u : Z) (sc : string → list string)
    (ft fu : string → list (option string)) cols :
  let imputer := SimpleImputer_constant v in
  OrdinalEncoder_transform (use_encoded_value u) (sc <$> cols)
    (SimpleImputer_transform imputer
       (SimpleImputer_fit imputer ((λ c, (c, ft c)) <$> cols))
       ((λ c, (c, fu c)) <$> cols))
  = Ok ((λ c, (Column c, code u (sc c) <$> fill (Some v) (fu c))) <$> cols).
Proof.
  cbv zeta. rewrite OrdinalEncoder_transform_use_encoded_value. f_equal.
  unfold SimpleImputer_transform, SimpleImputer_fit.
  induction cols as [|c cols IH]; [done|].
  cbn [fmap list_fmap zip zip_with omap list_omap keeps_empty statistic
       SimpleImputer_constant orb snd fst].
  by rewrite <- IH.
Qed.

(** ** The pipeline object *)

Lemma make_full_pipeline_eq : make_full_pipeline = Ok (full_pipeline None).
Proof. vm_compute. reflexivity. Qed.

Lemma select_float_drop (dropped : list string) X cols :
  (∀ c, c ∈ cols → c ∉ dropped) →
  select_float {| df_index := df_index X;
                  df_data := filter (λ p, p.1 ∉ dropped) (df_data X) |} cols
  = select_float X cols.
Proof.
  intros H. apply mapM_result_ext. intros c Hc. unfold float_column.
  by rewrite select_column_drop by auto.
Qed.

Lemma select_object_drop (dropped : list string) X cols :
  (∀ c, c ∈ cols → c ∉ dropped) →
  select_object {| df_index := df_index X;
                   df_data := filter (λ p, p.1 ∉ dropped) (df_data X) |} cols
  = select_object X cols.
Proof.
  intros H. apply mapM_result_ext. intros c Hc. unfold object_column.
  by rewrite select_column_drop by auto.
Qed.

Lemma select_float_cases X cols :
  (forallb (λ c, ok (float_column X c)) cols = true
   ∧ select_float X cols = Ok ((λ c, (c, floats X c)) <$> cols))
  ∨ (forallb (λ c, ok (float_column X c)) cols = false
     ∧ ∃ e, select_float X cols = Raise e).
Proof.
  destruct (forallb _ cols) eqn:Hall.
  - left. split; [done|]. by apply select_float_ok.
  - right. split; [done|].
    destruct (select_float X cols) as [Xs|e] eqn:Hs; [|by eauto].
    apply not_true_iff_false in Hall. destruct Hall.
    apply forallb_forall. intros c Hc%list_elem_of_In.
    by destruct (mapM_result_Ok_elem _ _ _ Hs c Hc) as [y ->].
Qed.

Lemma select_object_cases X cols :
  (forallb (λ c, ok (object_column X c)) cols = true
   ∧ select_object X cols = Ok ((λ c, (c, labels X c)) <$> cols))
  ∨ (forallb (λ c, ok (object_column X c)) cols = false
     ∧ ∃ e, select_object X cols = Raise e).
Proof.
  destruct (forallb _ cols) eqn:Hall.
  - left. split; [done|]. by apply select_object_ok.
  - right. split; [done|].
    destruct (select_object X cols) as [Xs|e] eqn:Hs; [|by eauto].
    apply not_true_iff_false in Hall. destruct Hall.
    apply forallb_forall. intros c Hc%list_elem_of_In.
    by destruct (mapM_result_Ok_elem _ _ _ Hs c Hc) as [y ->].
Qed.

(** The groups the preprocessor reads are disjoint from the drop list. *)
Lemma taxonomy_disjoint_drop c :
  c ∈ NUMERIC_COLS ++ NOMINAL_COLS ++ ORDINAL_COLS → c ∉ DROP_COLS.
Proof. revert c. apply Forall_forall. compute_done. Qed.

Lemma ordinal_numeric_subseteq c : c ∈ ordinal_numeric → c ∈ ORDINAL_COLS.
Proof. revert c. apply Forall_forall. compute_done. Qed.

Lemma ordinal_encode_subseteq c : c ∈ ordinal_encode → c ∈ ORDINAL_COLS.
Proof. revert c. apply Forall_forall. compute_done. Qed.

Lemma required_columns_ok_split X :
  required_columns_ok X =
  (forallb (λ c, ok (float_column X c)) NUMERIC_COLS
   && forallb (λ c, ok (float_column X c)) ordinal_numeric)
  && (forallb (λ c, ok (object_column X c)) NOMINAL_COLS
      && forallb (λ c, ok (object_column X c)) ordinal_encode).
Proof. unfold required_columns_ok. by rewrite !forallb_app. Qed.

Ltac drop_selection :=
  rewrite ?select_float_drop, ?select_object_drop
    by (intros c Hc; apply taxonomy_disjoint_drop; rewrite !elem_of_app;
        auto using ordinal_numeric_subseteq, ordinal_encode_subseteq).

Ltac fit_failure :=
  cbn [mbind result_bind mret result_ret andb];
  rewrite ?andb_false_r; cbn [andb];
  by split; [|intros (? & ? & ?)].

Lemma check_array_Ok {A} n (Xs : labelled A) :
  n ≠ 0 → check_array n Xs = Ok Xs.
Proof. intros Hn. unfold check_array. by rewrite bool_decide_eq_false_2. Qed.

Lemma check_array_Raise {A} (Xs : labelled A) :
  check_array 0 Xs = Raise ValueError_no_samples.
Proof. reflexivity. Qed.

(** Fitting succeeds exactly on the frames that hold the columns the
    preprocessor reads, and then stores [learned T], whatever state the
    object was in. *)
Lemma Pipeline_fit_full state T y p :
  Pipeline_fit (full_pipeline state) T y = Ok p
  ↔ required_columns_ok T = true ∧ df_index T ≠ 0
    ∧ p = full_pipeline (Some (learned T)).
Proof.
  unfold Pipeline_fit, full_pipeline, DropColumns_fit, DropColumns_transform.
  cbn [drop_step prep_step dc_columns].
  rewrite DataFrame_drop_ignore. cbn [mbind result_bind].
  unfold ColumnTransformer_fit, configured_transformers. cbn [transformers].
  rewrite !mapM_result_cons, mapM_result_nil.
  cbn [transformer_fit df_index]. drop_selection.
  rewrite required_columns_ok_split.
  destruct (select_float_cases T NUMERIC_COLS) as [[-> ->]|[-> [e ->]]];
    [|fit_failure].
  cbn [mbind result_bind mret result_ret].
  destruct (decide (df_index T = 0)) as [Hzero|Hrows].
  { rewrite Hzero, check_array_Raise. by split; [|intros (? & ? & ?)]. }
  rewrite check_array_Ok by done. cbn [mbind result_bind mret result_ret].
  destruct (select_object_cases T NOMINAL_COLS) as [[-> ->]|[-> [e ->]]];
    [|fit_failure].
  cbn [mbind result_bind mret result_ret].
  rewrite check_array_Ok by done. cbn [mbind result_bind mret result_ret].
  destruct (select_float_cases T ordinal_numeric) as [[-> ->]|[-> [e ->]]];
    [|fit_failure].
  cbn [mbind result_bind mret result_ret].
  rewrite check_array_Ok by done. cbn [mbind result_bind mret result_ret].
  destruct (select_object_cases T ordinal_encode) as [[-> ->]|[-> [e ->]]];
    [|fit_failure].
  cbn [mbind result_bind mret result_ret andb].
  rewrite check_array_Ok by done.
  cbn [mbind result_bind mret result_ret andb].
  unfold OrdinalEncoder_fit.
  rewrite bool_decide_eq_true_2
    by (by rewrite length_SimpleImputer_constant, length_fmap).
  cbn [mbind result_bind mret result_ret]. unfold learned.
  split; [intros [= <-]|intros (_ & _ & ->)]; done.
Qed.

Lemma bind_singleton {A B} (f : A → B) (l : list A) :
  l ≫= (λ x, [f x]) = f <$> l.
Proof. induction l as [|x l IH]; [done|]. cbn. by rewrite <- IH. Qed.

(** The fitted pipeline computes the column-by-column reading. *)
Lemma Pipeline_transform_learned T U :
  required_columns_ok U = true → df_index U ≠ 0 →
  Pipeline_transform (full_pipeline (Some (learned T))) U
  = Ok (reference_transform T U).
Proof.
  rewrite required_columns_ok_split, !andb_true_iff.
  intros [[Hnum Hordnum] [Hnom Hord]] Hrows.
  unfold Pipeline_transform, full_pipeline, DropColumns_transform.
  cbn [drop_step prep_step dc_columns].
  rewrite DataFrame_drop_ignore. cbn [mbind result_bind].
  unfold ColumnTransformer_transform, configured_transformers, learned.
  cbn [transformers transformers_ zip zip_with].
  rewrite !mapM_result_cons, mapM_result_nil.
  cbn [transformer_transform df_index]. drop_selection.
  rewrite !select_float_ok, !select_object_ok by done.
  cbn [mbind result_bind mret result_ret].
  rewrite !check_array_Ok by done.
  cbn [mbind result_bind mret result_ret].
  rewrite !numeric_block_fused.
  rewrite (nominal_block_fused (labels T) (labels U) NOMINAL_COLS).
  rewrite (ordinal_block_fused "None" (-1) scale (labels T) (labels U)).
  cbn [mbind result_bind mret result_ret concat].
  unfold reference_transform, ordinal_feature.
  by rewrite bind_singleton, app_nil_r.
Qed.

(** ** Statistics *)

Lemma median_nil : median [] = None.
Proof. reflexivity. Qed.

Lemma median_is_Some (l : list Q) : l ≠ [] → is_Some (median l).
Proof.
  intros Hl. unfold median.
  assert (Hlen : length (merge_sort Q_le l) = length l)
    by (by rewrite merge_sort_Permutation).
  assert (Hpos : 0 < length l) by (destruct l; [done|cbn; lia]).
  set (s := merge_sort Q_le l) in *. rewrite Hlen.
  rewrite bool_decide_eq_false_2 by lia.
  assert (Hhalf : length l / 2 < length l) by (apply Nat.div_lt; lia).
  destruct (lookup_lt_is_Some_2 s (length l / 2)) as [b Hb]; [lia|].
  destruct (Nat.even (length l)); [|by rewrite Hb].
  destruct (lookup_lt_is_Some_2 s (length l / 2 - 1)) as [a Ha]; [lia|].
  rewrite Ha, Hb. cbn. eauto.
Qed.

Lemma median_Some_iff (l : list Q) : is_Some (median l) ↔ l ≠ [].
Proof.
  split; [|apply median_is_Some]. intros [m Hm] ->. by rewrite median_nil in Hm.
Qed.

Lemma most_frequent_elem (l : list string) (m : string) :
  most_frequent l = Some m → m ∈ l.
Proof.
  unfold most_frequent. intros H%head_Some_elem_of.
  apply sorted_elem_of, list_elem_of_filter in H. tauto.
Qed.

Lemma most_frequent_is_Some (l : list string) :
  l ≠ [] → is_Some (most_frequent l).
Proof.
  intros Hl. unfold most_frequent. apply head_is_Some.
  assert (Hmax : max_list ((λ x, count x l) <$> l) ∈ (λ x, count x l) <$> l).
  { apply max_list_elem_of. by destruct l. }
  apply list_elem_of_fmap in Hmax as (x & Hx & Hin).
  intros Hnil%sorted_nil_inv.
  pose proof (filter_nil_not_elem_of _ _ x Hnil) as Hn. cbv beta in Hn.
  by apply Hn.
Qed.

Lemma most_frequent_Some_iff (l : list string) :
  is_Some (most_frequent l) ↔ l ≠ [].
Proof.
  split; [|apply most_frequent_is_Some].
  intros [m Hm%most_frequent_elem] ->. by apply elem_of_nil in Hm.
Qed.

(** ** Imputation and categories *)

Lemma elem_of_observed {A} (col : list (option A)) (x : A) :
  x ∈ observed col ↔ Some x ∈ col.
Proof.
  unfold observed. rewrite list_elem_of_omap. split.
  - by intros ([y|] & Hin & [= ->]).
  - intros Hin. by exists (Some x).
Qed.

Lemma fill_lookup {A} (stat : option A) (col : list (option A)) i :
  fill stat col !! i
  = (λ x, match x with Some v => Some v | None => stat end) <$> col !! i.
Proof. unfold fill. apply list_lookup_fmap. Qed.

Lemma elem_of_fill_Some {A} (m : A) (col : list (option A)) (x : option A) :
  x ∈ fill (Some m) col → ∃ v, x = Some v ∧ (Some v ∈ col ∨ v = m).
Proof.
  unfold fill. intros ([v|] & -> & Hin)%list_elem_of_fmap; eauto.
Qed.

Lemma sorted_Permutation (l k : list string) : l ≡ₚ k → sorted l = sorted k.
Proof.
  intros Hp. apply (Sorted_unique String.le); try apply sorted_Sorted.
  unfold sorted. by rewrite !merge_sort_Permutation.
Qed.

(** After mode imputation the categories of a column are the distinct
    labels observed in training, in sorted order. *)
Lemma unique_fill (m : string) (col : list (option string)) :
  m ∈ observed col →
  unique (fill (Some m) col) = Some <$> sorted (remove_dups (observed col)).
Proof.
  intros Hm. unfold unique.
  rewrite bool_decide_eq_false_2, app_nil_r.
  - f_equal. apply sorted_Permutation.
    apply NoDup_Permutation; [apply NoDup_remove_dups..|].
    intros x. rewrite !elem_of_remove_dups, !elem_of_observed. split.
    + intros (v & [= <-] & [?| ->])%elem_of_fill_Some; [done|].
      by apply elem_of_observed.
    + intros Hin. unfold fill. apply list_elem_of_fmap. by exists (Some x).
  - by intros (v & ? & _)%elem_of_fill_Some.
Qed.

(** ** What the feature matrix holds *)

Lemma elem_of_reference_transform T U name col :
  (name, col) ∈ reference_transform T U ↔
    (∃ c m, c ∈ NUMERIC_COLS ++ ordinal_numeric ∧ name = Column c
            ∧ median (observed (floats T c)) = Some m
            ∧ col = fill (Some m) (floats U c))
    ∨ (∃ c m cat, c ∈ NOMINAL_COLS ∧ name = Dummy c cat
            ∧ most_frequent (observed (labels T c)) = Some m
            ∧ cat ∈ unique (fill (Some m) (labels T c))
            ∧ col = indicator cat (fill (Some m) (labels U c)))
    ∨ (∃ c, c ∈ ordinal_encode ∧ name = Column c
            ∧ col = code (-1) (scale c) <$> fill (Some "None") (labels U c)).
Proof.
  unfold reference_transform.
  assert (Hnum : ∀ cols, (name, col) ∈ cols ≫= (λ c, numeric_feature c (floats T c) (floats U c))
            ↔ ∃ c m, c ∈ cols ∧ name = Column c
                ∧ median (observed (floats T c)) = Some m
                ∧ col = fill (Some m) (floats U c)).
  { intros cols. rewrite list_elem_of_bind. unfold numeric_feature. split.
    - intros (c & Hin & Hc). destruct (median _) as [m|] eqn:Hm.
      + apply list_elem_of_singleton in Hin as [= -> ->]. eauto 6.
      + by apply elem_of_nil in Hin.
    - intros (c & m & Hc & -> & Hm & ->). exists c. rewrite Hm.
      split; [by apply list_elem_of_singleton|done]. }
  rewrite !elem_of_app, !Hnum, !list_elem_of_bind. split.
  - intros [(c & m & ? & ?)|[(c & Hin & Hc)|[(c & m & ? & ?)|(c & Hin & Hc)]]].
    + left. exists c, m. rewrite elem_of_app. tauto.
    + right; left. unfold nominal_features, dummies in Hin.
      destruct (most_frequent _) as [m|] eqn:Hm; [|by apply elem_of_nil in Hin].
      apply list_elem_of_fmap in Hin as (cat & [= -> ->] & Hcat). eauto 10.
    + left. exists c, m. rewrite elem_of_app. tauto.
    + right; right. unfold ordinal_feature in Hin.
      apply list_elem_of_singleton in Hin as [= -> ->]. eauto.
  - intros [(c & m & [?|?]%elem_of_app & ?)|[(c & m & cat & Hc & -> & Hm & Hcat & ->)|(c & Hc & -> & ->)]].
    + left. eauto.
    + do 2 right. left. eauto.
    + right; left. exists c. split; [|done]. unfold nominal_features, dummies.
      rewrite Hm. apply list_elem_of_fmap. eauto.
    + do 3 right. exists c. split; [|done]. unfold ordinal_feature.
      by apply list_elem_of_singleton.
Qed.

Lemma has_observed_true {A} (col : list (option A)) :
  has_observed col ↔ observed col ≠ [].
Proof. unfold has_observed. by destruct (observed col). Qed.

Lemma numeric_feature_names (ft fu : string → list (option Q)) cols :
  (cols ≫= λ c, numeric_feature c (ft c) (fu c)).*1
  = Column <$> filter (λ c, has_observed (ft c)) cols.
Proof.
  induction cols as [|c cols IH]; [done|].
  cbn [mbind list_bind]. rewrite fmap_app, IH, filter_cons.
  unfold numeric_feature.
  destruct (median (observed (ft c))) as [m|] eqn:Hm.
  - rewrite decide_True; [done|].
    apply has_observed_true, median_Some_iff. eauto.
  - rewrite decide_False; [done|].
    rewrite has_observed_true, <- median_Some_iff, Hm. by intros [? ?].
Qed.

Lemma nominal_feature_names (ft fu : string → list (option string)) cols :
  (cols ≫= λ c, nominal_features c (ft c) (fu c)).*1
  = filter (λ c, has_observed (ft c)) cols
    ≫= λ c, (λ s, Dummy c (Some s)) <$> sorted (remove_dups (observed (ft c))).
Proof.
  induction cols as [|c cols IH]; [done|].
  cbn [mbind list_bind]. rewrite fmap_app, IH, filter_cons.
  unfold nominal_features, dummies.
  destruct (most_frequent (observed (ft c))) as [m|] eqn:Hm.
  - rewrite decide_True
      by (apply has_observed_true, most_frequent_Some_iff; eauto).
    cbn [mbind list_bind]. f_equal.
    rewrite unique_fill by (by apply most_frequent_elem).
    rewrite <- !list_fmap_compose. done.
  - rewrite decide_False; [done|].
    rewrite has_observed_true, <- most_frequent_Some_iff, Hm. by intros [? ?].
Qed.

(** The names of the output columns depend on the training frame alone. *)
Lemma feature_names_reference T U :
  feature_names (reference_transform T U) = fitted_feature_names T.
Proof.
  unfold feature_names, reference_transform, fitted_feature_names.
  rewrite !fmap_app, !numeric_feature_names, nominal_feature_names.
  by do 3 f_equal.
Qed.

(** ** Fitted pipelines *)

Ltac transform_failure :=
  cbn [mbind result_bind mret result_ret];
  rewrite ?(nominal_block_fused (labels _) (labels _) NOMINAL_COLS);
  cbn [mbind result_bind mret result_ret]; eauto.

Lemma Pipeline_transform_raises T U :
  required_columns_ok U = false ∨ df_index U = 0 →
  ∃ e, Pipeline_transform (full_pipeline (Some (learned T))) U = Raise e.
Proof.
  rewrite required_columns_ok_split.
  unfold Pipeline_transform, full_pipeline, DropColumns_transform.
  cbn [drop_step prep_step dc_columns].
  rewrite DataFrame_drop_ignore. cbn [mbind result_bind].
  unfold ColumnTransformer_transform, configured_transformers, learned.
  cbn [transformers transformers_ zip zip_with].
  rewrite !mapM_result_cons, mapM_result_nil.
  cbn [transformer_transform df_index]. drop_selection.
  intros Hbad.
  destruct (select_float_cases U NUMERIC_COLS) as [[H1 ->]|[_ [e ->]]];
    [|transform_failure].
  cbn [mbind result_bind mret result_ret].
  destruct (decide (df_index U = 0)) as [Hzero|Hrows].
  { rewrite Hzero, check_array_Raise. transform_failure. }
  rewrite check_array_Ok by done. cbn [mbind result_bind mret result_ret].
  destruct (select_object_cases U NOMINAL_COLS) as [[H2 ->]|[_ [e ->]]];
    [|transform_failure].
  cbn [mbind result_bind mret result_ret].
  rewrite check_array_Ok by done. cbn [mbind result_bind mret result_ret].
  rewrite (nominal_block_fused (labels T) (labels U) NOMINAL_COLS).
  cbn [mbind result_bind mret result_ret].
  destruct (select_float_cases U ordinal_numeric) as [[H3 ->]|[_ [e ->]]];
    [|transform_failure].
  cbn [mbind result_bind mret result_ret].
  rewrite check_array_Ok by done. cbn [mbind result_bind mret result_ret].
  destruct (select_object_cases U ordinal_encode) as [[H4 ->]|[_ [e ->]]];
    [|transform_failure].
  exfalso. rewrite H1, H2, H3, H4 in Hbad. by destruct Hbad.
Qed.

(** [transform] on a fitted pipeline succeeds exactly on the frames that
    have a row and hold the columns the preprocessor reads, and returns the
    column-by-column reading. *)
Lemma Pipeline_transform_full T U M :
  Pipeline_transform (full_pipeline (Some (learned T))) U = Ok M
  ↔ required_columns_ok U = true ∧ df_index U ≠ 0
    ∧ M = reference_transform T U.
Proof.
  split.
  - intros Htr.
    destruct (required_columns_ok U) eqn:Hok;
      [destruct (decide (df_index U = 0)) as [Hzero|Hrows]|].
    + destruct (Pipeline_transform_raises T U) as [e He]; [by right|].
      congruence.
    + rewrite Pipeline_transform_learned in Htr by done.
      by injection Htr as <-.
    + destruct (Pipeline_transform_raises T U) as [e He]; [by left|].
      congruence.
  - intros (Hok & Hrows & ->). by apply Pipeline_transform_learned.
Qed.

Lemma fitted_pipeline p0 T y p :
  make_full_pipeline = Ok p0 → Pipeline_fit p0 T y = Ok p →
  required_columns_ok T = true ∧ df_index T ≠ 0
  ∧ p = full_pipeline (Some (learned T)).
Proof.
  rewrite make_full_pipeline_eq. intros [= <-]. apply Pipeline_fit_full.
Qed.

Lemma ordinal_encode_not_numeric c :
  c ∈ ordinal_encode → c ∉ NUMERIC_COLS ++ ordinal_numeric.
Proof. revert c. apply Forall_forall. compute_done. Qed.

Lemma rank_unknown (cats : list string) (v : string) :
  v ∉ cats → rank cats (Some v) = None.
Proof.
  intros Hv. unfold rank. cbn [mbind option_bind].
  destruct (list_find (eq v) cats) as [[i x]|] eqn:Hf; [|done].
  apply list_find_Some in Hf as (Hl & <- & _).
  destruct Hv. by eapply list_elem_of_lookup_2.
Qed.

(** The column of an ordinal-categorical source in the feature matrix. *)
Lemma ordinal_column_of_reference T U c :
  c ∈ ordinal_encode →
  let col := code (-1) (scale c) <$> fill (Some "None") (labels U c) in
  (Column c, col) ∈ reference_transform T U
  ∧ ∀ col', (Column c, col') ∈ reference_transform T U → col' = col.
Proof.
  intros Hc col. split.
  - apply elem_of_reference_transform. do 2 right. by exists c.
  - intros col' Hin. apply elem_of_reference_transform in Hin
      as [(c' & m & Hc' & [= <-] & _)|[(c' & m & cat & _ & ? & _)
                                      |(c' & _ & [= <-] & ->)]]; [|done..].
    by apply ordinal_encode_not_numeric in Hc.
Qed.

Lemma code_lookup u cats (col : list (option string)) i x :
  fill (Some "None") col !! i = Some x →
  (code u cats <$> fill (Some "None") col) !! i = Some (code u cats x).
Proof. intros H. by rewrite list_lookup_fmap, H. Qed.

(** A column that has a cell belongs to a frame that has a row. *)
Lemma labels_row X c i x : labels X c !! i = Some x → df_index X ≠ 0.
Proof.
  unfold labels, object_column, select_column.
  destruct (filter _ (df_data X)) as [|[c' col] [|? ?]];
    cbn [mbind result_bind]; try by rewrite lookup_nil.
  destruct (bool_decide_reflect (column_length col = df_index X)) as [Hlen|];
    cbn [mbind result_bind]; [|by rewrite lookup_nil].
  destruct col as [v|v]; [by rewrite lookup_nil|].
  intros Hl%lookup_lt_Some. cbn in Hlen. lia.
Qed.

Lemma floats_row X c i x : floats X c !! i = Some x → df_index X ≠ 0.
Proof.
  unfold floats, float_column, select_column.
  destruct (filter _ (df_data X)) as [|[c' col] [|? ?]];
    cbn [mbind result_bind]; try by rewrite lookup_nil.
  destruct (bool_decide_reflect (column_length col = df_index X)) as [Hlen|];
    cbn [mbind result_bind]; [|by rewrite lookup_nil].
  destruct col as [v|v]; [|by rewrite lookup_nil].
  intros Hl%lookup_lt_Some. cbn in Hlen. lia.
Qed.

(** ** Group-wise encoder: unseen categories *)


(** ** Group-wise encoder: ordinal codes *)

(** C2, as the code has it.  On a fitted pipeline and a frame with a row,
    every ordinal-categorical source has exactly one output column; in it
    a missing (NaN) cell receives the rank of the label None whenever the
    scale of the column has that label, and a label that is not in the
    scale receives -1.  The call raises nothing. *)
Theorem ordinal_codes_spec p0 T y p U :
  make_full_pipeline = Ok p0 →
  Pipeline_fit p0 T y = Ok p →
  required_columns_ok U = true →
  df_index U ≠ 0 →
  ∃ M, Pipeline_transform p U = Ok M
    ∧ ∀ c, c ∈ ordinal_encode →
        ∃ col, (Column c, col) ∈ M
          ∧ (∀ col', (Column c, col') ∈ M → col' = col)
          ∧ ∀ i,
              (labels U c !! i = Some None →
               ∀ r, rank (scale c) (Some "None") = Some r →
                    col !! i = Some (Some (inject_Z (Z.of_nat r))))
              ∧ (∀ v, labels U c !! i = Some (Some v) → v ∉ scale c →
                      col !! i = Some (Some (inject_Z (-1)))).
Proof.
  intros Hmake Hfit HU HUrows.
  destruct (fitted_pipeline _ _ _ _ Hmake Hfit) as (HT & HTrows & ->).
  exists (reference_transform T U).
  rewrite Pipeline_transform_learned by done. split; [done|].
  intros c Hc. destruct (ordinal_column_of_reference T U c Hc) as [Hin Huniq].
  eexists. split; [exact Hin|]. split; [exact Huniq|].
  intros i. split.
  - intros Hmiss r Hr.
    erewrite code_lookup by (by rewrite fill_lookup, Hmiss).
    unfold code. by rewrite Hr.
  - intros v Hv Hnot.
    erewrite code_lookup by (by rewrite fill_lookup, Hv).
    unfold code. by rewrite rank_unknown.
Qed.

(** C10. The ordinal-categorical columns whose scale has no label None are
    Functional, Land Slope, Lot Shape and Paved Drive.  In such a column a
    missing cell is filled with None, which the scale does not know, and
    receives -1, which is the rank of no label. *)
Theorem missing_without_None_in_scale p0 T y p U c i :
  make_full_pipeline = Ok p0 →
  Pipeline_fit p0 T y = Ok p →
  required_columns_ok U = true →
  c ∈ ordinal_encode →
  "None" ∉ scale c →
  labels U c !! i = Some None →
  filter (λ c, "None" ∉ scale c) ordinal_encode
    = [ "Functional"; "Land Slope"; "Lot Shape"; "Paved Drive" ]
  ∧ ∃ M col,
      Pipeline_transform p U = Ok M
      ∧ (Column c, col) ∈ M
      ∧ (∀ col', (Column c, col') ∈ M → col' = col)
      ∧ fill (Some "None") (labels U c) !! i = Some (Some "None")
      ∧ col !! i = Some (Some (inject_Z (-1)))
      ∧ ∀ x r, rank (scale c) x = Some r →
               inject_Z (Z.of_nat r) ≠ inject_Z (-1).
Proof.
  intros Hmake Hfit HU Hc Hnone Hmiss. split; [by vm_compute|].
  destruct (fitted_pipeline _ _ _ _ Hmake Hfit) as (HT & HTrows & ->).
  pose proof (labels_row _ _ _ _ Hmiss) as HUrows.
  destruct (ordinal_column_of_reference T U c Hc) as [Hin Huniq].
  eexists _, _. rewrite Pipeline_transform_learned by done.
  split; [done|]. split; [exact Hin|]. split; [exact Huniq|].
  assert (Hfill : fill (Some "None") (labels U c) !! i = Some (Some "None"))
    by (by rewrite fill_lookup, Hmiss).
  split; [done|]. split.
  - erewrite code_lookup by done. unfold code. by rewrite rank_unknown.
  - intros x r _ [= Heq]. lia.
Qed.

(** ** Group-wise encoder: missing values *)

#[global] Instance Q_le_total : Total Q_le.
Proof.
  intros x y. unfold Q_le. rewrite !Is_true_true, !Qle_bool_iff.
  destruct (Qlt_le_dec x y); [left; by apply Qlt_le_weak|by right].
Qed.









(** ** Output columns *)

(** C4, as the code has it.  The output columns of a pipeline fitted on
    [T] are, for every transformed frame, [fitted_feature_names T]: the
    numeric columns in configured order, then the indicator columns of the
    nominal columns, grouped by source column and ordered by sorted
    category label, then the ordinal-numeric columns, then one rank column
    per ordinal-categorical column; a numeric, nominal or ordinal-numeric
    column without an observed training value has no output column.  Count
    and order are the same for all transform calls. *)
Theorem output_columns_spec p0 T y p :
  make_full_pipeline = Ok p0 →
  Pipeline_fit p0 T y = Ok p →
  (∀ U M, Pipeline_transform p U = Ok M →
          feature_names M = fitted_feature_names T)
  ∧ (∀ U1 U2 M1 M2,
       Pipeline_transform p U1 = Ok M1 → Pipeline_transform p U2 = Ok M2 →
       feature_names M1 = feature_names M2 ∧ length M1 = length M2).
Proof.
  intros Hmake Hfit.
  destruct (fitted_pipeline _ _ _ _ Hmake Hfit) as (HT & HTrows & ->).
  assert (Hnames : ∀ U M,
            Pipeline_transform (full_pipeline (Some (learned T))) U = Ok M →
            feature_names M = fitted_feature_names T).
  { intros U M (_ & _ & ->)%Pipeline_transform_full.
    apply feature_names_reference. }
  split; [done|]. intros U1 U2 M1 M2 H1%Hnames H2%Hnames.
  assert (Heq : feature_names M1 = feature_names M2) by congruence.
  split; [done|]. unfold feature_names in Heq.
  by rewrite <- (length_fmap fst), Heq, length_fmap.
Qed.

(** ** Pipeline assembler *)

(** C6. Fitting a fitted pipeline again on the same training frame gives
    the same pipeline, hence the same output on every frame; and what a
    fit stores does not depend on what an earlier fit, on another frame,
    had stored. *)
Theorem refit_replaces_state p0 T y p1 :
  make_full_pipeline = Ok p0 →
  Pipeline_fit p0 T y = Ok p1 →
  Pipeline_fit p1 T y = Ok p1
  ∧ (∀ p2 U, Pipeline_fit p1 T y = Ok p2 →
             Pipeline_transform p2 U = Pipeline_transform p1 U)
  ∧ (∀ T' y' p', Pipeline_fit p0 T' y' = Ok p' →
                 Pipeline_fit p' T y = Ok p1).
Proof.
  intros Hmake Hfit.
  destruct (fitted_pipeline _ _ _ _ Hmake Hfit) as (HT & HTrows & ->).
  assert (Hre : ∀ state,
            Pipeline_fit (full_pipeline state) T y
            = Ok (full_pipeline (Some (learned T))))
    by (intros state; by apply Pipeline_fit_full).
  split; [apply Hre|]. split.
  - intros p2 U. rewrite Hre. by intros [= <-].
  - intros T' y' p' Hfit'.
    destruct (fitted_pipeline _ _ _ _ Hmake Hfit') as (_ & _ & ->). apply Hre.
Qed.

(** C8. The target handed to [fit] has no influence: two fits on the same
    frame with different targets store the same state, fail alike when
    they fail, and give the same output on every frame. *)
Theorem target_is_ignored p X y1 y2 U :
  Pipeline_fit p X y1 = Pipeline_fit p X y2
  ∧ (Pipeline_fit p X y1 ≫= λ p', Pipeline_transform p' U)
    = (Pipeline_fit p X y2 ≫= λ p', Pipeline_transform p' U).
Proof. split; reflexivity. Qed.

(** ** The worked example *)

Lemma example_train_ok : required_columns_ok train_frame = true.
Proof. by vm_compute. Qed.

Lemma example_test_ok : required_columns_ok test_frame = true.
Proof. by vm_compute. Qed.

Lemma example_test_rows : df_index test_frame ≠ 0.
Proof. done. Qed.

Lemma example_fit :
  Pipeline_fit (full_pipeline None) train_frame None = Ok fitted_example.
Proof. apply Pipeline_fit_full. split; [exact example_train_ok|done]. Qed.

Lemma example_transform :
  Pipeline_transform fitted_example test_frame
  = Ok (reference_transform train_frame test_frame).
Proof.
  apply Pipeline_transform_learned; [exact example_test_ok|done].
Qed.


Lemma ordinal_codes_spec_witness :
  df_index test_frame ≠ 0
  ∧ ∃ M, Pipeline_transform fitted_example test_frame = Ok M
    ∧ ∀ c, c ∈ ordinal_encode →
        ∃ col, (Column c, col) ∈ M
          ∧ (∀ col', (Column c, col') ∈ M → col' = col)
          ∧ ∀ i,
              (labels test_frame c !! i = Some None →
               ∀ r, rank (scale c) (Some "None") = Some r →
                    col !! i = Some (Some (inject_Z (Z.of_nat r))))
              ∧ (∀ v, labels test_frame c !! i = Some (Some v) → v ∉ scale c →
                      col !! i = Some (Some (inject_Z (-1)))).
Proof.
  split; [exact example_test_rows|].
  apply (ordinal_codes_spec (full_pipeline None) train_frame None
           fitted_example test_frame).
  - exact make_full_pipeline_eq.
  - exact example_fit.
  - exact example_test_ok.
  - exact example_test_rows.
Defined.

(** C2 as stated fails on Land Slope: the scale of the column is Gtl, Mod,
    Sev, the label None has no rank in it, and the missing cell of row 0
    receives -1, which is not a rank. *)
Lemma missing_Land_Slope_counterexample :
  "Land Slope" ∈ ordinal_encode
  ∧ scale "Land Slope" = [ "Gtl"; "Mod"; "Sev" ]
  ∧ rank (scale "Land Slope") (Some "None") = None
  ∧ labels test_frame "Land Slope" !! 0 = Some None
  ∧ ∃ M col,
      Pipeline_transform fitted_example test_frame = Ok M
      ∧ M !! 65 = Some (Column "Land Slope", col)
      ∧ col !! 0 = Some (Some (inject_Z (-1)))
      ∧ ∀ r : nat, col !! 0 ≠ Some (Some (inject_Z (Z.of_nat r))).
Proof.
  split; [compute_done|]. do 3 (split; [by vm_compute|]).
  rewrite example_transform.
  eexists _, _. split; [reflexivity|]. split; [by vm_compute|].
  assert (Hcol : ∀ x, [ Some (inject_Z (-1)); x ] !! 0
                      = Some (Some (inject_Z (-1)))) by done.
  split; [by vm_compute|]. intros r. rewrite Hcol.
  unfold inject_Z. intros [= Heq]. lia.
Qed.

Lemma missing_without_None_in_scale_witness :
  ("None" ∉ scale "Land Slope")
  ∧ labels test_frame "Land Slope" !! 0 = Some None
  ∧ filter (λ c, "None" ∉ scale c) ordinal_encode
    = [ "Functional"; "Land Slope"; "Lot Shape"; "Paved Drive" ]
  ∧ ∃ M col,
      Pipeline_transform fitted_example test_frame = Ok M
      ∧ (Column "Land Slope", col) ∈ M
      ∧ (∀ col', (Column "Land Slope", col') ∈ M → col' = col)
      ∧ fill (Some "None") (labels test_frame "Land Slope") !! 0
        = Some (Some "None")
      ∧ col !! 0 = Some (Some (inject_Z (-1)))
      ∧ ∀ x r, rank (scale "Land Slope") x = Some r →
               inject_Z (Z.of_nat r) ≠ inject_Z (-1).
Proof.
  split; [compute_done|]. split; [by vm_compute|].
  apply (missing_without_None_in_scale (full_pipeline None) train_frame None
           fitted_example test_frame "Land Slope" 0).
  - exact make_full_pipeline_eq.
  - exact example_fit.
  - exact example_test_ok.
  - compute_done.
  - compute_done.
  - by vm_compute.
Defined.



Lemma output_columns_spec_witness :
  (∀ U M, Pipeline_transform fitted_example U = Ok M →
          feature_names M = fitted_feature_names train_frame)
  ∧ (∀ U1 U2 M1 M2,
       Pipeline_transform fitted_example U1 = Ok M1 →
       Pipeline_transform fitted_example U2 = Ok M2 →
       feature_names M1 = feature_names M2 ∧ length M1 = length M2).
Proof.
  apply (output_columns_spec (full_pipeline None) train_frame None
           fitted_example).
  - exact make_full_pipeline_eq.
  - exact example_fit.
Defined.

(** C4 as stated fails on the order inside a one-hot block: in
    [train_frame] the labels of MS Zoning are first seen in the order RL,
    FV, and the first indicator column of the block is the one of FV. *)
Lemma first_seen_order_counterexample :
  observed (labels train_frame "MS Zoning") = [ "RL"; "FV"; "RL" ]
  ∧ first_seen_feature_names train_frame !! 28
    = Some (Dummy "MS Zoning" (Some "RL"))
  ∧ ∃ M,
      Pipeline_transform fitted_example train_frame = Ok M
      ∧ M !! 28 = Some (Dummy "MS Zoning" (Some "FV"),
                        [ Some 0%Q; Some 1%Q; Some 0%Q ])
      ∧ feature_names M !! 28 = Some (Dummy "MS Zoning" (Some "FV"))
      ∧ feature_names M ≠ first_seen_feature_names train_frame.
Proof.
  do 2 (split; [by vm_compute|]). unfold fitted_example.
  rewrite (Pipeline_transform_learned train_frame train_frame example_train_ok)
    by done.
  eexists. split; [reflexivity|]. do 2 (split; [by vm_compute|]).
  intros Heq. apply (f_equal (λ l, l !! 28)) in Heq. by vm_compute in Heq.
Qed.



Lemma refit_replaces_state_witness :
  Pipeline_fit fitted_example train_frame None = Ok fitted_example
  ∧ (∀ p2 U, Pipeline_fit fitted_example train_frame None = Ok p2 →
             Pipeline_transform p2 U = Pipeline_transform fitted_example U)
  ∧ (∀ T' y' p', Pipeline_fit (full_pipeline None) T' y' = Ok p' →
                 Pipeline_fit p' train_frame None = Ok fitted_example).
Proof.
  apply (refit_replaces_state (full_pipeline None) train_frame None
           fitted_example).
  - exact make_full_pipeline_eq.
  - exact example_fit.
Defined.

(** The validator on a frame that lacks Lot Area and SalePrice: both names,
    in sorted order, and the text of the exception. *)
Example validate_incomplete_frame :
  _validate_columns incomplete_frame true
  = Raise (ValueError_missing_columns [ "Lot Area"; "SalePrice" ])
  ∧ missing_columns_message [ "Lot Area"; "SalePrice" ]
    = "Missing expected columns in dataframe: ['Lot Area', 'SalePrice']"
  ∧ _validate_columns incomplete_frame false
    = Raise (ValueError_missing_columns [ "Lot Area" ]).
Proof. repeat split; by vm_compute. Qed.

(** * Further properties of the code *)

(** ** Validator *)

Lemma validate_columns_Ok_iff (df : DataFrame) (require_target : bool) :
  _validate_columns df require_target = Ok tt
  ↔ ∀ c, c ∈ expected_columns require_target → c ∈ columns df.
Proof.
  split; [|apply validate_columns_Ok].
  intros Hok c Hc. destruct (decide (c ∈ columns df)) as [|Habs]; [done|].
  by rewrite (validate_columns_Raise df require_target c) in Hok.
Qed.

Lemma expected_columns_target c :
  c ∈ expected_columns true ↔ c ∈ expected_columns false ∨ c = TARGET_COL.
Proof.
  unfold expected_columns.
  rewrite !elem_of_app, elem_of_nil, list_elem_of_singleton. tauto.
Qed.

(** X1. Requiring the target only adds the target to what is checked: the
    training check passes exactly when the inference check passes and the
    frame has the target column, and when the inference check reports a
    list, the training check reports that list, with the target added when
    it is absent. *)
Theorem validate_columns_target_flag (df : DataFrame) :
  (_validate_columns df true = Ok tt
   ↔ _validate_columns df false = Ok tt ∧ TARGET_COL ∈ columns df)
  ∧ (∀ missing,
       _validate_columns df false = Raise (ValueError_missing_columns missing) →
       ∃ missing',
         _validate_columns df true = Raise (ValueError_missing_columns missing')
         ∧ ∀ c, c ∈ missing'
                ↔ c ∈ missing ∨ (c = TARGET_COL ∧ TARGET_COL ∉ columns df)).
Proof.
  split.
  - rewrite !validate_columns_Ok_iff. split.
    + intros Hall. split.
      * intros c Hc. apply Hall, expected_columns_target. by left.
      * apply Hall, expected_columns_target. by right.
    + intros [Hall Ht] c [Hc| ->]%expected_columns_target; auto.
  - intros missing Hfalse.
    assert (Hm : missing = missing_columns df false).
    { rewrite validate_columns_unfold in Hfalse.
      destruct (missing_columns df false); [done|]. by injection Hfalse. }
    assert (Hne : ∃ c, c ∈ missing).
    { rewrite validate_columns_unfold in Hfalse. rewrite Hm.
      destruct (missing_columns df false) as [|c ?]; [done|].
      exists c. by left. }
    destruct Hne as [c Hc]. rewrite Hm in Hc.
    apply elem_of_missing_columns in Hc as [Hexp Habs].
    exists (missing_columns df true). split.
    + apply (validate_columns_Raise df true c); [|done].
      apply expected_columns_target. by left.
    + intros c'. rewrite Hm, !elem_of_missing_columns, expected_columns_target.
      split; [|intros [[? ?]|[-> ?]]; auto].
      intros [[?| ->] ?]; auto.
Qed.

(** X2. The validator reads nothing but the set of column labels: two
    frames with the same labels, in any order and with any cells, get the
    same answer. *)
Theorem validate_columns_label_set (df df' : DataFrame) (require_target : bool) :
  (∀ c, c ∈ columns df ↔ c ∈ columns df') →
  _validate_columns df require_target = _validate_columns df' require_target.
Proof.
  intros Hsame. rewrite !validate_columns_unfold.
  assert (Heq : missing_columns df require_target
                = missing_columns df' require_target); [|by rewrite Heq].
  unfold missing_columns. do 3 f_equal.
  apply set_eq. intros c. by rewrite !elem_of_list_to_set.
Qed.

Lemma validate_columns_label_set_witness :
  (∀ c, c ∈ columns train_frame ↔ c ∈ columns reversed_frame)
  ∧ _validate_columns train_frame true = _validate_columns reversed_frame true.
Proof.
  assert (H : ∀ c, c ∈ columns train_frame ↔ c ∈ columns reversed_frame).
  { intros c. unfold columns, reversed_frame. cbn [df_data].
    by rewrite fmap_reverse, elem_of_reverse. }
  split; [exact H|].
  exact (validate_columns_label_set train_frame reversed_frame true H).
Defined.

(** ** Column dropper *)

Lemma filter_filter_and {A} (P Q : A → Prop) `{∀ x, Decision (P x)}
    `{∀ x, Decision (Q x)} (l : list A) :
  filter Q (filter P l) = filter (λ x, P x ∧ Q x) l.
Proof.
  induction l as [|x l IH]; [done|].
  rewrite (filter_cons P), (filter_cons (λ x, P x ∧ Q x)).
  destruct (decide (P x)) as [HP|HP].
  - rewrite filter_cons. destruct (decide (Q x)) as [HQ|HQ].
    + rewrite decide_True by done. by rewrite IH.
    + rewrite decide_False by tauto. done.
  - rewrite decide_False by tauto. done.
Qed.

Lemma filter_all {A} (P : A → Prop) `{∀ x, Decision (P x)} (l : list A) :
  (∀ x, x ∈ l → P x) → filter P l = l.
Proof.
  induction l as [|x l IH]; intros Hall; [done|].
  rewrite filter_cons, decide_True by (apply Hall; by left).
  rewrite IH; [done|]. intros y Hy. apply Hall. by right.
Qed.

(** X3. Droppers compose: dropping one list and then another is dropping
    both at once, in either order; and a dropper none of whose columns is
    in the frame returns the frame as it is. *)
Theorem DropColumns_compose (cols1 cols2 : list string) (X : DataFrame) :
  (DropColumns_transform (mkDropColumns cols1) X
     ≫= DropColumns_transform (mkDropColumns cols2))
  = DropColumns_transform (mkDropColumns (cols1 ++ cols2)) X
  ∧ (DropColumns_transform (mkDropColumns cols1) X
       ≫= DropColumns_transform (mkDropColumns cols2))
    = (DropColumns_transform (mkDropColumns cols2) X
         ≫= DropColumns_transform (mkDropColumns cols1))
  ∧ ((∀ c, c ∈ cols1 → c ∉ columns X) →
     DropColumns_transform (mkDropColumns cols1) X = Ok X).
Proof.
  unfold DropColumns_transform. cbn [dc_columns].
  rewrite !DataFrame_drop_ignore. cbn [mbind result_bind].
  rewrite !DataFrame_drop_ignore. cbn [df_index df_data].
  rewrite !filter_filter_and. split; [|split].
  - do 2 f_equal. apply list_filter_iff. intros p. rewrite elem_of_app. tauto.
  - do 2 f_equal. apply list_filter_iff. intros p. tauto.
  - intros Habs. destruct X as [n data]. cbn [df_index df_data]. do 2 f_equal.
    apply filter_all. intros [c col] Hin Hc. apply (Habs c Hc).
    unfold columns. cbn [df_data]. apply list_elem_of_fmap. by exists (c, col).
Qed.

(** ** What the pipeline reads *)

Lemma select_float_ext X X' cols :
  (∀ c, c ∈ cols → select_column X c = select_column X' c) →
  select_float X cols = select_float X' cols.
Proof.
  intros H. apply mapM_result_ext. intros c Hc. unfold float_column.
  by rewrite H.
Qed.

Lemma select_object_ext X X' cols :
  (∀ c, c ∈ cols → select_column X c = select_column X' c) →
  select_object X cols = select_object X' cols.
Proof.
  intros H. apply mapM_result_ext. intros c Hc. unfold object_column.
  by rewrite H.
Qed.

Lemma transformer_fit_ext t cols X X' :
  df_index X = df_index X' →
  (∀ c, c ∈ cols → select_column X c = select_column X' c) →
  transformer_fit t cols X = transformer_fit t cols X'.
Proof.
  intros Hrows H. destruct t; cbn [transformer_fit]; rewrite ?Hrows;
    by rewrite ?(select_float_ext X X'), ?(select_object_ext X X').
Qed.

Lemma transformer_transform_ext t f cols X X' :
  df_index X = df_index X' →
  (∀ c, c ∈ cols → select_column X c = select_column X' c) →
  transformer_transform t f cols X = transformer_transform t f cols X'.
Proof.
  intros Hrows H. destruct t, f; cbn [transformer_transform]; rewrite ?Hrows;
    by rewrite ?(select_float_ext X X'), ?(select_object_ext X X').
Qed.

(** Every column list of the configured entries lies in the three groups
    the preprocessor reads. *)
Lemma configured_columns_read name t cols c :
  (name, t, cols) ∈ configured_transformers → c ∈ cols →
  c ∈ NUMERIC_COLS ++ NOMINAL_COLS ++ ORDINAL_COLS.
Proof.
  unfold configured_transformers. rewrite !elem_of_cons, elem_of_nil.
  rewrite !elem_of_app.
  intros [[= _ _ ->]|[[= _ _ ->]|[[= _ _ ->]|[[= _ _ ->]|[]]]]] Hc;
    auto using ordinal_numeric_subseteq, ordinal_encode_subseteq.
Qed.

Section same_read_columns.
Context (X X' : DataFrame).
Hypothesis Hrows : df_index X = df_index X'.
Hypothesis Hsame :
  ∀ c, c ∈ NUMERIC_COLS ++ NOMINAL_COLS ++ ORDINAL_COLS →
       select_column X c = select_column X' c.

Lemma dropped_same_read_columns c :
  c ∈ NUMERIC_COLS ++ NOMINAL_COLS ++ ORDINAL_COLS →
  select_column {| df_index := df_index X;
                   df_data := filter (λ p, p.1 ∉ DROP_COLS) (df_data X) |} c
  = select_column {| df_index := df_index X';
                     df_data := filter (λ p, p.1 ∉ DROP_COLS) (df_data X') |} c.
Proof.
  intros Hc. rewrite !select_column_drop by (by apply taxonomy_disjoint_drop).
  by apply Hsame.
Qed.

Lemma Pipeline_fit_same_read_columns state y y' :
  Pipeline_fit (full_pipeline state) X y
  = Pipeline_fit (full_pipeline state) X' y'.
Proof.
  unfold Pipeline_fit, full_pipeline, DropColumns_fit, DropColumns_transform.
  cbn [drop_step prep_step dc_columns].
  rewrite !DataFrame_drop_ignore. cbn [mbind result_bind].
  unfold ColumnTransformer_fit. cbn [transformers].
  erewrite mapM_result_ext; [reflexivity|].
  intros [[name t] cols] Hin. apply transformer_fit_ext; [done|].
  intros c Hc. apply dropped_same_read_columns.
  by eapply configured_columns_read.
Qed.

Lemma Pipeline_transform_same_read_columns state :
  Pipeline_transform (full_pipeline state) X
  = Pipeline_transform (full_pipeline state) X'.
Proof.
  unfold Pipeline_transform, full_pipeline, DropColumns_transform.
  cbn [drop_step prep_step dc_columns].
  rewrite !DataFrame_drop_ignore. cbn [mbind result_bind].
  unfold ColumnTransformer_transform. cbn [transformers transformers_].
  destruct state as [fs|]; [|done].
  erewrite mapM_result_ext; [reflexivity|].
  intros [[[name t] cols] f] Hin. apply transformer_transform_ext; [done|].
  intros c Hc. apply dropped_same_read_columns.
  apply elem_of_zip_l in Hin. by eapply configured_columns_read.
Qed.
End same_read_columns.

(** X5. The pipeline reads the numeric, nominal and ordinal columns and
    nothing else: two frames with the same number of rows that agree on
    those columns give the same fit (with any targets) and the same
    transform output, exceptions included.  The target column, the
    drop-list columns and any unclassified column have no influence. *)
Theorem pipeline_reads_only_its_groups p0 X X' y y' :
  make_full_pipeline = Ok p0 →
  df_index X = df_index X' →
  (∀ c, c ∈ NUMERIC_COLS ++ NOMINAL_COLS ++ ORDINAL_COLS →
        select_column X c = select_column X' c) →
  Pipeline_fit p0 X y = Pipeline_fit p0 X' y'
  ∧ ∀ T yT p, Pipeline_fit p0 T yT = Ok p →
              Pipeline_transform p X = Pipeline_transform p X'.
Proof.
  rewrite make_full_pipeline_eq. intros [= <-] Hrows Hsame. split.
  - by apply Pipeline_fit_same_read_columns.
  - intros T yT p (_ & _ & ->)%Pipeline_fit_full.
    by apply Pipeline_transform_same_read_columns.
Qed.

Lemma bare_frame_same_read_columns c :
  c ∈ NUMERIC_COLS ++ NOMINAL_COLS ++ ORDINAL_COLS →
  select_column train_frame c = select_column bare_frame c.
Proof.
  intros Hc. unfold bare_frame. rewrite select_column_drop; [done|].
  revert c Hc. apply Forall_forall. compute_done.
Qed.

Lemma pipeline_reads_only_its_groups_witness :
  columns bare_frame = NUMERIC_COLS ++ ordinal_numeric ++ NOMINAL_COLS
                       ++ ordinal_encode
  ∧ Pipeline_fit (full_pipeline None) train_frame None
    = Pipeline_fit (full_pipeline None) bare_frame
        (Some (Float64 [ Some 1%Q; Some 2%Q; Some 3%Q ]))
  ∧ ∀ T yT p, Pipeline_fit (full_pipeline None) T yT = Ok p →
              Pipeline_transform p train_frame = Pipeline_transform p bare_frame.
Proof.
  split; [by vm_compute|].
  exact (pipeline_reads_only_its_groups (full_pipeline None) train_frame
           bare_frame None (Some (Float64 [ Some 1%Q; Some 2%Q; Some 3%Q ]))
           make_full_pipeline_eq eq_refl bare_frame_same_read_columns).
Defined.

(** ** Frames the pipeline rejects *)

Lemma select_column_not_unique X c :
  length (filter (λ p : string * column, p.1 = c) (df_data X)) ≠ 1 →
  select_column X c = Raise (ValueError_column c).
Proof.
  unfold select_column.
  by destruct (filter _ (df_data X)) as [|[? ?] [|? ?]].
Qed.

Lemma read_columns_group c :
  c ∈ NUMERIC_COLS ++ NOMINAL_COLS ++ ORDINAL_COLS →
  c ∈ NUMERIC_COLS ++ ordinal_numeric ∨ c ∈ NOMINAL_COLS ++ ordinal_encode.
Proof. revert c. apply Forall_forall. compute_done. Qed.

Lemma required_columns_not_unique X c :
  c ∈ NUMERIC_COLS ++ NOMINAL_COLS ++ ORDINAL_COLS →
  length (filter (λ p : string * column, p.1 = c) (df_data X)) ≠ 1 →
  required_columns_ok X = false.
Proof.
  intros Hc Hlen. apply not_true_iff_false. intros Hok.
  assert (Hsel : select_column X c = Raise (ValueError_column c))
    by (by apply select_column_not_unique).
  unfold required_columns_ok in Hok.
  apply andb_true_iff in Hok as [Hf Ho].
  rewrite forallb_forall in Hf, Ho.
  destruct (read_columns_group c Hc) as [Hin|Hin];
    apply list_elem_of_In in Hin.
  - apply Hf in Hin. unfold float_column in Hin. by rewrite Hsel in Hin.
  - apply Ho in Hin. unfold object_column in Hin. by rewrite Hsel in Hin.
Qed.

(** X4. A frame in which a column the preprocessor reads is absent, or
    occurs more than once, is rejected: fitting on it raises, and so does
    transforming it with a fitted pipeline.  Transforming with a pipeline
    that was never fitted raises [NotFittedError]. *)
Theorem pipeline_rejects_bad_frames p0 X y c :
  make_full_pipeline = Ok p0 →
  c ∈ NUMERIC_COLS ++ NOMINAL_COLS ++ ORDINAL_COLS →
  length (filter (λ p : string * column, p.1 = c) (df_data X)) ≠ 1 →
  (∃ e, Pipeline_fit p0 X y = Raise e)
  ∧ (∀ T yT p, Pipeline_fit p0 T yT = Ok p →
               ∃ e, Pipeline_transform p X = Raise e)
  ∧ Pipeline_transform p0 X = Raise NotFittedError.
Proof.
  rewrite make_full_pipeline_eq. intros [= <-] Hc Hlen.
  pose proof (required_columns_not_unique X c Hc Hlen) as Hbad.
  split; [|split].
  - destruct (Pipeline_fit (full_pipeline None) X y) as [p|e] eqn:Hfit;
      [|by eauto].
    apply Pipeline_fit_full in Hfit as (Hok & _ & _). congruence.
  - intros T yT p (_ & _ & ->)%Pipeline_fit_full.
    destruct (Pipeline_transform _ X) as [M|e] eqn:Htr; [|by eauto].
    apply Pipeline_transform_full in Htr as (Hok & _ & _). congruence.
  - unfold Pipeline_transform, full_pipeline, DropColumns_transform.
    cbn [drop_step prep_step dc_columns].
    by rewrite DataFrame_drop_ignore.
Qed.

Lemma pipeline_rejects_bad_frames_witness :
  ("Lot Area" ∉ columns incomplete_frame)
  ∧ (∃ e, Pipeline_fit (full_pipeline None) incomplete_frame None = Raise e)
  ∧ (∀ T yT p, Pipeline_fit (full_pipeline None) T yT = Ok p →
               ∃ e, Pipeline_transform p incomplete_frame = Raise e)
  ∧ Pipeline_transform (full_pipeline None) incomplete_frame
    = Raise NotFittedError.
Proof.
  split; [compute_done|].
  apply (pipeline_rejects_bad_frames (full_pipeline None) incomplete_frame
           None "Lot Area").
  - exact make_full_pipeline_eq.
  - compute_done.
  - by vm_compute.
Defined.

(** ** Shape of the feature matrix *)

Lemma length_sorted (l : list string) : length (sorted l) = length l.
Proof. unfold sorted. by rewrite merge_sort_Permutation. Qed.

Lemma length_dummy_names (T : DataFrame) (cols : list string) :
  length (filter (λ c, has_observed (labels T c)) cols
          ≫= λ c, (λ s, Dummy c (Some s))
                   <$> sorted (remove_dups (observed (labels T c))))
  = sum_list ((λ c, length (remove_dups (observed (labels T c)))) <$> cols).
Proof.
  induction cols as [|c cols IH]; [done|].
  rewrite filter_cons. cbn [fmap list_fmap sum_list sum_list_with].
  destruct (decide (has_observed (labels T c))) as [Hobs|Hobs].
  - cbn [mbind list_bind]. rewrite length_app, length_fmap, length_sorted.
    by rewrite IH.
  - rewrite IH. unfold has_observed in Hobs.
    by destruct (observed (labels T c)).
Qed.

(** X6. Width of the feature matrix: one column per numeric and
    ordinal-numeric column that had an observed training value, one per
    distinct label observed in training for each nominal column, and 17
    for the ordinal-categorical columns; 47 plus the number of distinct
    training labels when every numeric column had an observed value. *)
Theorem feature_matrix_width p0 T y p U M :
  make_full_pipeline = Ok p0 →
  Pipeline_fit p0 T y = Ok p →
  Pipeline_transform p U = Ok M →
  let distinct_labels :=
    sum_list ((λ c, length (remove_dups (observed (labels T c))))
              <$> NOMINAL_COLS) in
  length M
  = length (filter (λ c, has_observed (floats T c))
                   (NUMERIC_COLS ++ ordinal_numeric))
    + distinct_labels + 17
  ∧ ((∀ c, c ∈ NUMERIC_COLS ++ ordinal_numeric → has_observed (floats T c)) →
     length M = 47 + distinct_labels).
Proof.
  intros Hmake Hfit Htr distinct_labels.
  destruct (fitted_pipeline _ _ _ _ Hmake Hfit) as (_ & _ & ->).
  apply Pipeline_transform_full in Htr as (_ & _ & ->).
  assert (Hlen : length (reference_transform T U)
                 = length (filter (λ c, has_observed (floats T c))
                                  (NUMERIC_COLS ++ ordinal_numeric))
                   + distinct_labels + 17).
  { rewrite <- (length_fmap fst). fold (feature_names (reference_transform T U)).
    rewrite feature_names_reference. unfold fitted_feature_names.
    rewrite !length_app, !length_fmap, length_dummy_names, filter_app, length_app.
    fold distinct_labels.
    assert (length ordinal_encode = 17) as -> by done. lia. }
  split; [done|]. intros Hall. rewrite Hlen, filter_all by done.
  assert (length (NUMERIC_COLS ++ ordinal_numeric) = 30) as -> by done. lia.
Qed.

Lemma feature_matrix_width_witness :
  ∃ M, Pipeline_transform fitted_example test_frame = Ok M
    ∧ length M = 68
    ∧ length M
      = length (filter (λ c, has_observed (floats train_frame c))
                       (NUMERIC_COLS ++ ordinal_numeric))
        + sum_list ((λ c, length (remove_dups (observed (labels train_frame c))))
                    <$> NOMINAL_COLS)
        + 17.
Proof.
  pose proof example_transform as Htr.
  eexists. split; [exact Htr|]. split; [by vm_compute|].
  exact (proj1 (feature_matrix_width (full_pipeline None) train_frame None
                  fitted_example test_frame _
                  make_full_pipeline_eq example_fit Htr)).
Defined.
